(** * Profile server and client: a shallow embedding

    The two programs of the repository are embedded here:
    - [src/self_mcp_server.py], the capability provider ([HarisProfileServer]);
    - [src/slef_mcp_client.py], the orchestrating client ([HarisProfileClient]).

    Python's [str] is a sequence of Unicode code points and is modelled as a
    list of code points.  The network, the HTML parser and the two model
    backends are the environment: their answers are parameters of the
    functions that call them. *)

From Stdlib Require Import ZArith NArith List Ascii String Bool Lia.
From stdpp Require Import base option list gmap.
Import ListNotations.

Set Default Proof Using "Type".
Set Warnings "-register-all".

(** ** Python strings *)

Module PyStr.

(** A [str] value: its code points, in order. *)
Abbreviation str := (list N).

(** A literal of the source, written with Rocq's string notation.  Every
    literal that goes through [u] is plain ASCII, so a character is its own
    code point. *)
Fixpoint u (s : string) : str :=
  match s with
  | EmptyString => []
  | String c s' => N_of_ascii c :: u s'
  end.

(** [a == b] on strings. *)
Definition str_eqb (a b : str) : bool := bool_decide (a = b).

(** [s.startswith(p)]. *)
Fixpoint startswith (p s : str) : bool :=
  match p, s with
  | [], _ => true
  | _ :: _, [] => false
  | a :: p', b :: s' => N.eqb a b && startswith p' s'
  end.

(** [sub in s]: [sub] occurs in [s] as a contiguous run.  The empty string
    occurs in every string. *)
Fixpoint contains (sub s : str) : bool :=
  startswith sub s ||
  match s with
  | [] => false
  | _ :: s' => contains sub s'
  end.

(** [s.replace(old, new)] scans from the left and replaces the occurrences
    of [old] that do not overlap an earlier replaced one.  [skip] counts the
    characters of a replaced occurrence still to be dropped. *)
Fixpoint replace_from (old new : str) (skip : nat) (s : str) : str :=
  match s with
  | [] => []
  | c :: s' =>
      match skip with
      | S k => replace_from old new k s'
      | O =>
          if startswith old s
          then new ++ replace_from old new (length old - 1) s'
          else c :: replace_from old new 0 s'
      end
  end.

(** With an empty [old], Python puts [new] before every character and at
    the end. *)
Definition replace (old new s : str) : str :=
  match old with
  | [] => flat_map (fun c => new ++ [c]) s ++ new
  | _ :: _ => replace_from old new 0 s
  end.

(** [str.isspace] for one character: the code points Python treats as white
    space. *)
Definition isspace (c : N) : bool :=
  ((9 <=? c) && (c <=? 13) || (28 <=? c) && (c <=? 32)
   || (c =? 133) || (c =? 160) || (c =? 5760)
   || (8192 <=? c) && (c <=? 8202)
   || (c =? 8232) || (c =? 8233) || (c =? 8239) || (c =? 8287)
   || (c =? 12288))%N.

Fixpoint lstrip (s : str) : str :=
  match s with
  | [] => []
  | c :: s' => if isspace c then lstrip s' else s
  end.

Definition rstrip (s : str) : str := rev (lstrip (rev s)).

(** [s.strip()]. *)
Definition strip (s : str) : str := rstrip (lstrip s).

(** [s.split(sep)] for a non-empty [sep]: the pieces between the
    occurrences of [sep], found from the left without overlap.  [cur] holds
    the current piece, reversed. *)
Fixpoint split_from (sep : str) (skip : nat) (cur : str) (s : str) : list str :=
  match s with
  | [] => [rev cur]
  | c :: s' =>
      match skip with
      | S k => split_from sep k cur s'
      | O =>
          if startswith sep s
          then rev cur :: split_from sep (length sep - 1) [] s'
          else split_from sep 0 (c :: cur) s'
      end
  end.

Definition split (sep s : str) : list str := split_from sep 0 [] s.

(** [sep.join(parts)]. *)
Fixpoint join (sep : str) (parts : list str) : str :=
  match parts with
  | [] => []
  | [p] => p
  | p :: rest => p ++ sep ++ join sep rest
  end.

(** [s[:n]]. *)
Definition slice_to (n : nat) (s : str) : str := firstn n s.

(** Truth value of a string: non-empty. *)
Definition truthy (s : str) : bool :=
  match s with [] => false | _ :: _ => true end.

(** Lower-casing of the code points below 256, where [str.lower] acts
    character by character: A-Z and the capital letters of Latin-1 move up
    by 32, everything else stays.  It is the instance used to run the model
    on concrete text; the functions below take [str.lower] as a parameter. *)
Definition lower_char (c : N) : N :=
  (if (65 <=? c) && (c <=? 90) then c + 32
   else if (192 <=? c) && (c <=? 222) && negb (c =? 215) then c + 32
   else c)%N.

Definition lower_latin1 (s : str) : str := map lower_char s.

Definition is_ascii_letter (c : N) : bool :=
  ((65 <=? c) && (c <=? 90) || (97 <=? c) && (c <=? 122))%N.

Definition upper_ascii (c : N) : N :=
  (if (97 <=? c) && (c <=? 122) then c - 32 else c)%N.

(** [s.title()] on ASCII text: the first letter of every run of letters in
    upper case, the other letters in lower case.  The source applies it to
    the keys of its two URL tables only. *)
Fixpoint title_from (prev_cased : bool) (s : str) : str :=
  match s with
  | [] => []
  | c :: s' =>
      (if is_ascii_letter c
       then if prev_cased then lower_char c else upper_ascii c
       else c) :: title_from (is_ascii_letter c) s'
  end.

Definition title (s : str) : str := title_from false s.

(** [s.split()] without a separator: the runs of characters that are not
    white space.  [cur] holds the current run, reversed. *)
Fixpoint split_ws_from (cur : str) (s : str) : list str :=
  match s with
  | [] => match cur with [] => [] | _ :: _ => [rev cur] end
  | c :: s' =>
      if isspace c
      then match cur with
           | [] => split_ws_from [] s'
           | _ :: _ => rev cur :: split_ws_from [] s'
           end
      else split_ws_from (c :: cur) s'
  end.

Definition split_ws (s : str) : list str := split_ws_from [] s.

End PyStr.
Import PyStr.

(** ** Exceptions

    A computation that may raise: [Raise e] carries [str(e)], the only part
    of an exception the programs look at. *)

Inductive exc (A : Type) : Type :=
  | Raise (e : str)
  | Return (a : A).
Arguments Raise {A} e.
Arguments Return {A} a.

#[global] Instance exc_ret : MRet exc := fun _ a => Return a.
#[global] Instance exc_bind : MBind exc := fun _ _ f c =>
  match c with
  | Raise e => Raise e
  | Return a => f a
  end.

(** [d[k]] on a dict kept in insertion order; a missing key raises
    [KeyError], whose text is the quoted key. *)
Fixpoint dict_get {V : Type} (d : list (str * V)) (k : str) : option V :=
  match d with
  | [] => None
  | (k', v) :: d' => if str_eqb k k' then Some v else dict_get d' k
  end.

Definition getitem {V : Type} (d : list (str * V)) (k : str) : exc V :=
  match dict_get d k with
  | Some v => Return v
  | None => Raise (u "'" ++ k ++ u "'")
  end.

Definition keys {V : Type} (d : list (str * V)) : list str := map fst d.

(** Line feed and the bullet of the rendered lists. *)
Definition LF : str := [10%N].
Definition BULLET : str := [8226%N].
(** The double quote. *)
Definition DQUOTE : str := [34%N].

(** ** The server: [src/self_mcp_server.py] *)

Module Server.

(** [TextContent(type="text", text=...)] and [CallToolResult(content=[...])]. *)
Record TextContent : Type := { text : str }.
Record CallToolResult : Type := { content : list TextContent }.

(** A parsed page, as far as the extraction routine looks at it:
    [select soup sel] is [element.get_text(strip=True)] for every element
    that [soup.select(sel)] returns, in document order, and [get_text soup]
    is [soup.get_text(separator='\n', strip=True)]. *)
Record BeautifulSoup : Type := {
  select : str -> list str;
  get_text : str
}.

(** What the body of the [try] of [_fetch_and_parse_content] gets from the
    network and the parser: an exception ([client.get], [raise_for_status]
    or the parser raised), or the parsed page. *)
Inductive fetched : Type :=
  | FetchRaises (e : str)
  | FetchPage (soup : BeautifulSoup).

(** [self.profile_urls] and [self.social_urls], in insertion order. *)
Definition profile_urls : list (str * str) :=
  [ (u "overview", u "https://sites.google.com/view/haris-gulzar/home");
    (u "experience", u "https://sites.google.com/view/haris-gulzar/experience");
    (u "publications", u "https://sites.google.com/view/haris-gulzar/publications");
    (u "career_timeline", u "https://sites.google.com/view/haris-gulzar/career-timeline") ].

Definition social_urls : list (str * str) :=
  [ (u "linkedin", u "https://www.linkedin.com/in/haris-gulzar/");
    (u "instagram", u "https://www.instagram.com/japanviaharis/");
    (u "facebook", u "https://www.facebook.com/mharisgulzar/");
    (u "youtube", u "https://www.youtube.com/@japanviaharis") ].

(** The catalog published by [handle_list_tools]: name and description. *)
Definition tools : list (str * str) :=
  [ (u "get_profile_overview",
     u "Fetch Haris Gulzar's professional overview and background information");
    (u "get_experience",
     u "Fetch detailed work experience and professional history");
    (u "get_publications",
     u "Fetch scientific publications and conference presentations");
    (u "get_career_timeline",
     u "Fetch career timeline and professional milestones");
    (u "get_social_links",
     u "Get social media profiles and links");
    (u "search_profile_content",
     u "Search across all profile content for specific information") ].

Definition tool_names : list str := keys tools.

Definition selectors : list str :=
  [ u "div[data-dtype=" ++ DQUOTE ++ u "d" ++ DQUOTE ++ u "]"; u ".zfr3Q"; u ".uGdb3";
    u "p"; u "h1"; u "h2"; u "h3"; u "li" ].

(** The noise filter: [if text and len(text) > 10]. *)
Definition keeps (text : str) : bool := truthy text && (10 <? length text).

(** The selector loop: the first selector with at least one element
    contributes its kept texts and ends the loop ([break]). *)
Fixpoint content_parts (soup : BeautifulSoup) (sels : list str) : list str :=
  match sels with
  | [] => []
  | selector :: rest =>
      match select soup selector with
      | [] => content_parts soup rest
      | elements => List.filter keeps elements
      end
  end.

(** The selector that ends the loop, if any. *)
Fixpoint winning_selector (soup : BeautifulSoup) (sels : list str) : option str :=
  match sels with
  | [] => None
  | selector :: rest =>
      match select soup selector with
      | [] => winning_selector soup rest
      | _ :: _ => Some selector
      end
  end.

(** A search hit: one entry of [results] in [_search_profile_content]. *)
Record search_hit : Type := {
  hit_section : str;
  hit_url : str;
  hit_matches : list str
}.

Section Handlers.

(** [str.lower]. *)
Variable lower : str -> str.
(** The network and the parser, per URL. *)
Variable fetch : str -> fetched.

Definition _fetch_and_parse_content (url : str) : str :=
  match fetch url with
  | FetchPage soup =>
      let parts := content_parts soup selectors in
      match parts with
      | _ :: _ => join (LF ++ LF) (firstn 20 parts)
      | [] => slice_to 2000 (get_text soup)
      end
  | FetchRaises e =>
      u "Unable to fetch content from " ++ url ++ u ". Error: " ++ e
  end.

Definition text_result (s : str) : CallToolResult :=
  {| content := [ {| text := s |} ] |}.

Definition _get_profile_overview : exc CallToolResult :=
  url ← getitem profile_urls (u "overview");
  let content := _fetch_and_parse_content url in
  url' ← getitem profile_urls (u "overview");
  mret (text_result (u "Profile Overview:" ++ LF ++ LF ++ content ++ LF ++ LF
                     ++ u "Source: " ++ url')).

Definition _get_experience : exc CallToolResult :=
  url ← getitem profile_urls (u "experience");
  let content := _fetch_and_parse_content url in
  url' ← getitem profile_urls (u "experience");
  mret (text_result (u "Work Experience:" ++ LF ++ LF ++ content ++ LF ++ LF
                     ++ u "Source: " ++ url')).

Definition _get_publications : exc CallToolResult :=
  url ← getitem profile_urls (u "publications");
  let content := _fetch_and_parse_content url in
  url' ← getitem profile_urls (u "publications");
  mret (text_result (u "Publications and Conferences:" ++ LF ++ LF ++ content
                     ++ LF ++ LF ++ u "Source: " ++ url')).

Definition _get_career_timeline : exc CallToolResult :=
  url ← getitem profile_urls (u "career_timeline");
  let content := _fetch_and_parse_content url in
  url' ← getitem profile_urls (u "career_timeline");
  mret (text_result (u "Career Timeline:" ++ LF ++ LF ++ content ++ LF ++ LF
                     ++ u "Source: " ++ url')).

Definition _get_social_links (platform : str) : exc CallToolResult :=
  social_info ←
    (if str_eqb platform (u "all") then
       mret (fold_left
               (fun social_info '(platform_name, url) =>
                  social_info ++ BULLET ++ u " " ++ title platform_name
                  ++ u ": " ++ url ++ LF)
               social_urls
               (u "Social Media Profiles:" ++ LF ++ LF))
     else if existsb (str_eqb platform) (keys social_urls) then
       url ← getitem social_urls platform;
       mret (title platform ++ u ": " ++ url)
     else
       mret (u "Platform '" ++ platform ++ u "' not found. Available platforms: "
             ++ join (u ", ") (keys social_urls)));
  mret (text_result social_info).

(** The paragraphs of [content] that count as matches. *)
Definition relevant_paragraphs (search_query content : str) : list str :=
  List.filter (fun p => contains search_query (lower p) && (20 <? length (strip p)))
              (split (LF ++ LF) content).

(** The loop over the sources: [results] after the [for]. *)
Definition search_results (query : str) : list search_hit :=
  let search_query := lower query in
  fold_left
    (fun results '(section_name, url) =>
       let content := _fetch_and_parse_content url in
       if contains search_query (lower content) then
         match relevant_paragraphs search_query content with
         | [] => results
         | relevant =>
             results ++ [ {| hit_section := title section_name;
                             hit_url := url;
                             hit_matches := firstn 3 relevant |} ]
         end
       else results)
    profile_urls [].

Definition render_hit (search_results : str) (result : search_hit) : str :=
  let search_results := search_results ++ u "**" ++ hit_section result ++ u ":**" ++ LF in
  let search_results :=
    fold_left (fun acc m => acc ++ BULLET ++ u " " ++ slice_to 200 m ++ u "..." ++ LF)
              (hit_matches result) search_results in
  search_results ++ u "Source: " ++ hit_url result ++ LF ++ LF.

Definition no_results (query : str) : str :=
  u "No results found for '" ++ query ++ u "' in the profile content.".

Definition _search_profile_content (query : str) : exc CallToolResult :=
  let results := search_results query in
  let search_results :=
    match results with
    | _ :: _ =>
        fold_left render_hit results
                  (u "Search results for '" ++ query ++ u "':" ++ LF ++ LF)
    | [] => no_results query
    end in
  mret (text_result search_results).

(** Truth value of the [arguments] of a call: [None] and the empty dict are
    false. *)
Definition has_arguments (arguments : option (gmap str str)) : bool :=
  match arguments with
  | None => false
  | Some a => negb (bool_decide (a = ∅))
  end.

(** [arguments.get(k)] and [arguments[k]], used on a true [arguments] only. *)
Definition args_get (arguments : option (gmap str str)) (k : str) : option str :=
  a ← arguments; a !! k.

Definition args_getitem (arguments : option (gmap str str)) (k : str) : exc str :=
  match args_get arguments k with
  | Some v => Return v
  | None => Raise (u "'" ++ k ++ u "'")
  end.

(** The body of the [try] of [handle_call_tool]. *)
Definition dispatch (name : str) (arguments : option (gmap str str)) : exc CallToolResult :=
  if str_eqb name (u "get_profile_overview") then _get_profile_overview
  else if str_eqb name (u "get_experience") then _get_experience
  else if str_eqb name (u "get_publications") then _get_publications
  else if str_eqb name (u "get_career_timeline") then _get_career_timeline
  else if str_eqb name (u "get_social_links") then
    let platform :=
      if has_arguments arguments
      then default (u "all") (args_get arguments (u "platform"))
      else u "all" in
    _get_social_links platform
  else if str_eqb name (u "search_profile_content") then
    if negb (has_arguments arguments)
       || negb (bool_decide (is_Some (args_get arguments (u "query"))))
    then Raise (u "Query parameter is required for search")
    else
      query ← args_getitem arguments (u "query");
      _search_profile_content query
  else Raise (u "Unknown tool: " ++ name).

(** [handle_call_tool]: every exception of the body becomes a text result. *)
Definition handle_call_tool (name : str) (arguments : option (gmap str str)) : CallToolResult :=
  match dispatch name arguments with
  | Return result => result
  | Raise e => text_result (u "Error: " ++ e)
  end.

End Handlers.

(** [Prompt(name=..., description=..., arguments=[...])]; an argument is its
    name, its description and its [required] flag. *)
Record Prompt : Type := {
  prompt_name : str;
  prompt_description : str;
  prompt_arguments : list (str * str * bool)
}.

(** [PromptMessage(role=..., content=...)] and
    [GetPromptResult(description=..., messages=[...])]. *)
Record PromptMessage : Type := { role : str; message_content : TextContent }.
Record GetPromptResult : Type := {
  description : str;
  messages : list PromptMessage
}.

Definition handle_list_prompts : list Prompt :=
  [ {| prompt_name := u "haris_profile_assistant";
       prompt_description :=
         u "Template prompt for Haris Gulzar profile information assistant";
       prompt_arguments :=
         [ (u "query_type",
            u "Type of information requested (overview, experience, publications, career, social)",
            false) ] |} ].

(** The text of the prompt, around the interpolated [query_type]. *)
Definition prompt_head : str :=
  u "You are an AI assistant with access to comprehensive information about Haris Gulzar, a professional with expertise in technology and research. You have access to the following information sources:"
  ++ LF ++ LF
  ++ u "**Available Information:**" ++ LF
  ++ u "- Professional overview and background" ++ LF
  ++ u "- Work experience and career history" ++ LF
  ++ u "- Scientific publications and conference presentations" ++ LF
  ++ u "- Career timeline and milestones" ++ LF
  ++ u "- Social media profiles and content" ++ LF ++ LF
  ++ u "**Your Role:**" ++ LF
  ++ u "- Provide accurate, comprehensive information about Haris Gulzar based on the available data" ++ LF
  ++ u "- Answer questions about his professional background, research, experience, and achievements" ++ LF
  ++ u "- Share relevant social media links when appropriate" ++ LF
  ++ u "- Maintain a professional and informative tone" ++ LF
  ++ u "- If asked about information not available in your sources, clearly state the limitations"
  ++ LF ++ LF
  ++ u "**Current Query Context:** ".

Definition prompt_tail : str :=
  LF ++ LF
  ++ u "Please use the available tools to fetch the most relevant and up-to-date information to answer the user's questions about Haris Gulzar.".

(** [handle_get_prompt]: nothing catches its [ValueError]. *)
Definition handle_get_prompt (name : str) (arguments : option (gmap str str))
    : exc GetPromptResult :=
  if negb (str_eqb name (u "haris_profile_assistant")) then
    Raise (u "Unknown prompt: " ++ name)
  else
    let query_type :=
      if has_arguments arguments
      then default (u "general") (args_get arguments (u "query_type"))
      else u "general" in
    let prompt_content := prompt_head ++ query_type ++ prompt_tail in
    Return {| description := u "Profile information assistant for Haris Gulzar";
              messages := [ {| role := u "user";
                               message_content := {| text := prompt_content |} |} ] |}.

End Server.

(** ** The client: [src/slef_mcp_client.py] *)

Module Client.

(** A parsed JSON document, which is also the Python value it becomes:
    [JNull] is [None].  A number is an integer here; the client looks at the
    truth value of a number only.  [JObj] lists the fields of the parsed
    dict, each key once. *)
Inductive json : Type :=
  | JNull
  | JBool (b : bool)
  | JNum (n : Z)
  | JStr (s : str)
  | JArr (items : list json)
  | JObj (fields : list (str * json)).

(** Truth value of a Python value. *)
Definition json_truthy (v : json) : bool :=
  match v with
  | JNull => false
  | JBool b => b
  | JNum n => negb (n =? 0)%Z
  | JStr s => truthy s
  | JArr items => match items with [] => false | _ :: _ => true end
  | JObj fields => match fields with [] => false | _ :: _ => true end
  end.

(** What [http_client.post] gives: an exception (no connection, timeout), or
    a response with its status code and, when the body parses,
    [response.json()]. *)
Inductive posted : Type :=
  | PostRaises (e : str)
  | PostResponse (status_code : Z) (body : option json).

(** The server end of the channel, as the client's [session] object:
    [list_tools] gives (name, description) pairs. *)
Record ClientSession : Type := {
  list_tools : exc (list (str * str));
  session_call_tool : str -> gmap str str -> exc Server.CallToolResult
}.

(** One call that went over the channel: the name, the arguments and the
    text [call_tool] made of the reply. *)
Record exchange : Type := {
  ex_name : str;
  ex_arguments : gmap str str;
  ex_reply : str
}.

(** What [print] writes: a line of text, or the answer line, which carries
    the answer value. *)
Inductive output : Type :=
  | Line (s : str)
  | Assistant (response : json).

(** The state a session threads: the calls made so far and the lines
    printed so far, oldest first. *)
Record io : Type := {
  exchanges : list exchange;
  printed : list output
}.

(** Stateful computations that may raise. *)
Definition IO (A : Type) : Type := io -> exc A * io.

#[global] Instance IO_ret : MRet IO := fun _ a st => (Return a, st).
#[global] Instance IO_bind : MBind IO := fun _ _ f c st =>
  match c st with
  | (Return a, st') => f a st'
  | (Raise e, st') => (Raise e, st')
  end.

Definition raise {A : Type} (e : str) : IO A := fun st => (Raise e, st).

Definition print (o : output) : IO unit := fun st =>
  (Return tt, {| exchanges := exchanges st; printed := printed st ++ [o] |}).

Definition record_exchange (x : exchange) : IO unit := fun st =>
  (Return tt, {| exchanges := exchanges st ++ [x]; printed := printed st |}).

(** [try: body except Exception as e: handler(e)]. *)
Definition try_except {A : Type} (body : IO A) (handler : str -> IO A) : IO A :=
  fun st =>
    match body st with
    | (Return a, st') => (Return a, st')
    | (Raise e, st') => handler e st'
    end.

(** A [for] loop that collects one value per item. *)
Fixpoint for_each {A B : Type} (items : list A) (body : A -> IO B) : IO (list B) :=
  match items with
  | [] => mret []
  | x :: rest =>
      b ← body x;
      bs ← for_each rest body;
      mret (b :: bs)
  end.

Definition ollama_url : str := u "http://localhost:11434/api/generate".
Definition hf_url : str :=
  u "https://api-inference.huggingface.co/models/microsoft/DialoGPT-large".

(** The keyword table of [_determine_relevant_tools], in insertion order. *)
Definition tool_keywords : list (str * list str) :=
  [ (u "get_profile_overview",
     [u "overview"; u "about"; u "background"; u "who is"; u "introduction"]);
    (u "get_experience",
     [u "experience"; u "work"; u "job"; u "career"; u "professional"; u "employment"]);
    (u "get_publications",
     [u "publication"; u "paper"; u "research"; u "conference"; u "academic"]);
    (u "get_career_timeline",
     [u "timeline"; u "history"; u "when"; u "career path"; u "progression"]);
    (u "get_social_links",
     [u "social"; u "linkedin"; u "instagram"; u "facebook"; u "youtube"; u "contact"]) ].

(** [tools.insert(0, x)]. *)
Definition insert0 {A : Type} (x : A) (l : list A) : list A := x :: l.

(** What one pass of the chat loop decides. *)
Inductive control : Type := Break | Continue.

(** How the chat loop reads a line. *)
Inductive command : Type :=
  | Quit
  | Help
  | Tools
  | Blank
  | Ask (user_input : str).

Section Client.

(** [str.lower]. *)
Variable lower : str -> str.
(** [self.http_client.post(url, json=body)]. *)
Variable post : str -> json -> posted.
(** [self.session]. *)
Variable session : option ClientSession.

Definition get_available_tools : IO (list (str * str)) :=
  match session with
  | None => raise (u "Not connected to server")
  | Some s =>
      match list_tools s with
      | Return tools => mret tools
      | Raise e => raise e
      end
  end.

Definition call_tool (tool_name : str) (arguments : option (gmap str str)) : IO str :=
  match session with
  | None => raise (u "Not connected to server")
  | Some s =>
      let sent := default ∅ arguments in
      let reply :=
        match session_call_tool s tool_name sent with
        | Return result => join LF (map Server.text (Server.content result))
        | Raise e => u "Error: " ++ e
        end in
      record_exchange {| ex_name := tool_name; ex_arguments := sent; ex_reply := reply |};;
      mret reply
  end.

Definition _query_ollama (query context : str) : json :=
  let prompt :=
    u "Based on the following information about Haris Gulzar, please answer the user's question:"
    ++ LF ++ LF ++ u "Context Information:" ++ LF ++ context ++ LF ++ LF
    ++ u "User Question: " ++ query ++ LF ++ LF
    ++ u "Please provide a comprehensive and helpful answer based on the available information." in
  match post ollama_url
             (JObj [ (u "model", JStr (u "llama2"));
                     (u "prompt", JStr prompt);
                     (u "stream", JBool false) ]) with
  | PostResponse status_code body =>
      if (status_code =? 200)%Z then
        match body with
        | Some (JObj fields) => default (JStr []) (dict_get fields (u "response"))
        | _ => JNull
        end
      else JNull
  | PostRaises e => JNull
  end.

Definition _query_huggingface (query context : str) : json :=
  let prompt :=
    u "Context: " ++ slice_to 1000 context ++ LF ++ LF
    ++ u "Question: " ++ query ++ LF ++ LF ++ u "Answer:" in
  match post hf_url (JObj [ (u "inputs", JStr prompt) ]) with
  | PostResponse status_code body =>
      if (status_code =? 200)%Z then
        match body with
        | Some (JArr (first :: _)) =>
            match first with
            | JObj fields =>
                match default (JStr []) (dict_get fields (u "generated_text")) with
                | JStr generated_text => JStr (strip (replace prompt [] generated_text))
                | _ => JNull
                end
            | _ => JNull
            end
        | _ => JNull
        end
      else JNull
  | PostRaises e => JNull
  end.

Definition _format_basic_response (query context : str) : str :=
  u "Based on the available information about Haris Gulzar:" ++ LF ++ LF
  ++ context ++ LF ++ LF
  ++ u "Your question: " ++ DQUOTE ++ query ++ DQUOTE ++ LF ++ LF
  ++ u "I've provided the relevant information above. For more detailed analysis, please consider setting up a local LLM (like Ollama) or using a cloud LLM service.".

Definition query_llm_with_context (user_query context_data : str) : json :=
  let ollama_response := _query_ollama user_query context_data in
  if json_truthy ollama_response then ollama_response
  else
    let hf_response := _query_huggingface user_query context_data in
    if json_truthy hf_response then hf_response
    else JStr (_format_basic_response user_query context_data).

(** [any(keyword in query_lower for keyword in keywords)]. *)
Definition any_in (keywords : list str) (query_lower : str) : bool :=
  existsb (fun keyword => contains keyword query_lower) keywords.

(** The tools whose keywords occur in the query, in table order. *)
Definition keyword_tools (query_lower : str) : list str :=
  fold_left
    (fun tools '(tool, keywords) =>
       if any_in keywords query_lower then tools ++ [tool] else tools)
    tool_keywords [].

(** [search_query] of [_determine_relevant_tools]. *)
Definition search_residual (query : str) : str :=
  strip (replace (u "look for") []
           (replace (u "find") []
              (replace (u "search for") [] query))).

Definition _determine_relevant_tools (query : str) : list str :=
  let query_lower := lower query in
  let tools := keyword_tools query_lower in
  let tools :=
    match tools with
    | [] => [u "get_profile_overview"; u "get_experience"]
    | _ :: _ => tools
    end in
  let tools :=
    if any_in [u "find"; u "search"; u "look for"; u "about"] query_lower then
      let search_query := search_residual query in
      if truthy search_query then insert0 (u "search_profile_content") tools
      else tools
    else tools in
  firstn 3 tools.

(** The [if]/[elif] chain at the head of the chat loop. *)
Definition command_of (line : str) : command :=
  let user_input := strip line in
  if existsb (str_eqb (lower user_input)) [u "/quit"; u "/exit"; u "quit"; u "exit"]
  then Quit
  else if str_eqb (lower user_input) (u "/help") then Help
  else if str_eqb (lower user_input) (u "/tools") then Tools
  else if negb (truthy user_input) then Blank
  else Ask user_input.

(** One pass of the [while True] of [interactive_chat], on the line that
    [input] returned. *)
Definition chat_turn (line : str) : IO control :=
  try_except
    (match command_of line with
     | Quit => mret Break
     | Help =>
         print (Line (u "Available commands:"));;
         print (Line (u "- Ask any question about Haris Gulzar"));;
         print (Line (u "- /tools : List available MCP tools"));;
         print (Line (u "- /help : Show this help"));;
         print (Line (u "- /quit : Exit"));;
         mret Continue
     | Tools =>
         tools ← get_available_tools;
         print (Line (u "Available tools:"));;
         for_each tools (fun '(name, description) =>
           print (Line (u "- " ++ name ++ u ": " ++ description)));;
         mret Continue
     | Blank => mret Continue
     | Ask user_input =>
         let relevant_tools := _determine_relevant_tools user_input in
         context_parts ←
           for_each relevant_tools (fun tool_name =>
             print (Line (u "Fetching information from " ++ tool_name ++ u "..."));;
             tool_result ← call_tool tool_name None;
             mret (u "=== " ++ tool_name ++ u " ===" ++ LF ++ tool_result));
         let context_data := join (LF ++ LF) context_parts in
         print (Line (u "Generating response..."));;
         let response := query_llm_with_context user_input context_data in
         print (Assistant response);;
         mret Continue
     end)
    (fun e => print (Line (u "Error: " ++ e));; mret Continue).

(** The [while True] loop of [interactive_chat], run on the lines typed so
    far.  The source leaves the loop on a quit word only: the result is
    [Break] when a pass broke out of it, and [Continue] when the lines typed
    so far are used up and the loop is at [input] again, waiting for the
    next line.  The end of the input and an interrupt from the keyboard are
    events outside this list; they are not modelled. *)
Fixpoint chat_loop (lines : list str) : IO control :=
  match lines with
  | [] => mret Continue
  | line :: rest =>
      c ← chat_turn line;
      match c with
      | Break => mret Break
      | Continue => chat_loop rest
      end
  end.

Definition banner : list output :=
  [ Line (u "=== Haris Gulzar Profile Assistant ===");
    Line (u "Ask questions about Haris's profile, experience, publications, etc.");
    Line (u "Available commands:");
    Line (u "- /tools : List available tools");
    Line (u "- /help : Show this help");
    Line (u "- /quit : Exit");
    Line [] ].

(** [interactive_chat] on the lines typed so far: [Break] when it has
    returned, [Continue] while its loop waits for the next line. *)
Definition interactive_chat (lines : list str) : IO control :=
  for_each banner print;;
  chat_loop lines.

End Client.

(** The server end of the channel.  Between the channel and
    [handle_call_tool] stands the SDK's [call_tool] decorator, which is not
    part of this repository and is a parameter here: [validate name
    arguments] is the text it answers with when it turns a call down against
    the published input schema, without running the handler, and [None]
    when it hands the call to the handler with the arguments sent. *)
Definition sdk_session (validate : str -> gmap str str -> option str)
    (lower : str -> str) (fetch : str -> Server.fetched) : ClientSession :=
  {| list_tools :=
       Return Server.tools;
     session_call_tool := fun name arguments =>
       match validate name arguments with
       | Some rejection => Return (Server.text_result rejection)
       | None => Return (Server.handle_call_tool lower fetch name (Some arguments))
       end |}.

(** The same with a decorator that turns no call down: every call reaches
    [handle_call_tool] with the arguments sent. *)
Definition server_session (lower : str -> str) (fetch : str -> Server.fetched) : ClientSession :=
  {| list_tools :=
       Return Server.tools;
     session_call_tool := fun name arguments =>
       Return (Server.handle_call_tool lower fetch name (Some arguments)) |}.

Definition io0 : io := {| exchanges := []; printed := [] |}.

(** [StdioServerParameters(command=..., args=...)]. *)
Record StdioServerParameters : Type := {
  sp_command : str;
  sp_args : list str
}.

(** [l[i]] on a list; an index past the end raises [IndexError]. *)
Definition list_getitem (l : list str) (i : nat) : exc str :=
  match nth_error l i with
  | Some x => Return x
  | None => Raise (u "list index out of range")
  end.

Definition default_server_path : str := u "python haris_profile_server.py".

Section Connect.

(** [str.lower], [self.http_client.post] and [stdio_client], which starts
    the server process and opens the channel, or raises. *)
Variable lower : str -> str.
Variable post : str -> json -> posted.
Variable stdio_client : StdioServerParameters -> exc ClientSession.

(** [connect_to_server]: the value returned and [self.session] after the
    call, which is [None] before it. *)
Definition connect_to_server (server_path : str) : bool * option ClientSession :=
  match (command ← list_getitem (split_ws server_path) 0;
         let args :=
           if 1 <? length (split_ws server_path)
           then skipn 1 (split_ws server_path)
           else [] in
         stdio_client {| sp_command := command; sp_args := args |}) with
  | Return session => (true, Some session)
  | Raise e => (false, None)
  end.

(** [main], on the lines typed so far: [Goodbye!] is printed once
    [interactive_chat] has returned; while the chat loop waits for the next
    line, [main] is still inside it. *)
Definition main (lines : list str) : IO unit :=
  print (Line (u "Connecting to Haris Profile MCP Server..."));;
  match connect_to_server default_server_path with
  | (true, session) =>
      c ← interactive_chat lower post session lines;
      match c with
      | Break => print (Line (u "Goodbye!"))
      | Continue => mret tt
      end
  | (false, _) =>
      print (Line (u "Failed to connect to server. Make sure the server is running."))
  end.

End Connect.

End Client.

(** ** Sample environments *)

(** A page made of paragraphs: the selector [p] finds them, the other
    selectors find nothing, and the text of the page is the paragraphs one
    per line. *)
Definition paragraphs_page (ps : list str) : Server.BeautifulSoup :=
  {| Server.select := fun sel => if str_eqb sel (u "p") then ps else [];
     Server.get_text := join LF ps |}.

(** A site that serves the same page at every URL, and one that is down. *)
Definition site_of (soup : Server.BeautifulSoup) (url : str) : Server.fetched :=
  Server.FetchPage soup.

Definition offline (url : str) : Server.fetched :=
  Server.FetchRaises (u "All connection attempts failed").

(** Both model backends unreachable. *)
Definition no_backend (url : str) (body : Client.json) : Client.posted :=
  Client.PostRaises (u "All connection attempts failed").

(** A backend that cannot be used: the request raised, or the status of
    the response is not 200. *)
Definition unavailable (r : Client.posted) : bool :=
  match r with
  | Client.PostRaises _ => true
  | Client.PostResponse status_code _ => negb (status_code =? 200)%Z
  end.

(** The tool of a table entry when one of its keywords occurs. *)
Definition entry_tool (query_lower : str) (entry : str * list str) : option str :=
  if Client.any_in (snd entry) query_lower then Some (fst entry) else None.

(** A computation keeps a property of the calls made so far. *)
Definition keeps_calls (P : Client.exchange -> Prop) {A : Type} (c : Client.IO A) : Prop :=
  forall st, Forall P (Client.exchanges st) -> Forall P (Client.exchanges (snd (c st))).

(** The search hit of one source, if the loop of [_search_profile_content]
    appends one for it. *)
Definition source_hit (lower : str -> str) (fetch : str -> Server.fetched)
    (query : str) (source : str * str) : option Server.search_hit :=
  let content := Server._fetch_and_parse_content fetch (snd source) in
  if contains (lower query) (lower content) then
    match Server.relevant_paragraphs lower (lower query) content with
    | [] => None
    | relevant =>
        Some {| Server.hit_section := title (fst source);
                Server.hit_url := snd source;
                Server.hit_matches := firstn 3 relevant |}
    end
  else None.

(** A string without white space at either end. *)
Definition no_outer_space (t : str) : Prop :=
  (forall c rest, t = c :: rest -> isspace c = false)
  /\ (forall rest c, t = rest ++ [c] -> isspace c = false).

(** The text [call_tool] makes of the session's answer to a call without
    arguments. *)
Definition reply_of (s : Client.ClientSession) (tool_name : str) : str :=
  match Client.session_call_tool s tool_name ∅ with
  | Return result => join LF (map Server.text (Server.content result))
  | Raise e => u "Error: " ++ e
  end.

(** The call [call_tool] records for a tool called without arguments. *)
Definition exchange_of (s : Client.ClientSession) (tool_name : str) : Client.exchange :=
  {| Client.ex_name := tool_name;
     Client.ex_arguments := ∅;
     Client.ex_reply := reply_of s tool_name |}.

(** The part of the context that one call contributes. *)
Definition context_part (x : Client.exchange) : str :=
  u "=== " ++ Client.ex_name x ++ u " ===" ++ LF ++ Client.ex_reply x.

(** A computation that ends without an exception, in every state. *)
Definition never_raises {A : Type} (c : Client.IO A) : Prop :=
  forall st, exists a, fst (c st) = Return a.

(** A computation that makes no call. *)
Definition same_calls {A : Type} (c : Client.IO A) : Prop :=
  forall st, Client.exchanges (snd (c st)) = Client.exchanges st.

(** The line the chat loop prints before it calls a tool. *)
Definition fetching_line (tool_name : str) : Client.output :=
  Client.Line (u "Fetching information from " ++ tool_name ++ u "...").

(** Endpoints for the examples: the local model answers every request with
    the given JSON object, the remote one is down. *)
Definition local_model (fields : list (str * Client.json)) (url : str) (body : Client.json)
    : Client.posted :=
  if str_eqb url Client.ollama_url
  then Client.PostResponse 200 (Some (Client.JObj fields))
  else Client.PostRaises (u "All connection attempts failed").

(** The four tools that fetch a page: name, heading of the result and key
    of the page in [profile_urls]. *)
Definition content_tools : list (str * str * str) :=
  [ (u "get_profile_overview", u "Profile Overview:", u "overview");
    (u "get_experience", u "Work Experience:", u "experience");
    (u "get_publications", u "Publications and Conferences:", u "publications");
    (u "get_career_timeline", u "Career Timeline:", u "career_timeline") ].

(** A page on which a class selector finds only short labels and the
    paragraphs hold the text. *)
Definition short_labels_page : Server.BeautifulSoup :=
  {| Server.select := fun sel =>
       if str_eqb sel (u ".zfr3Q") then [u "Home"; u "About"]
       else if str_eqb sel (u "p") then [u "A paragraph with the real content"]
       else [];
     Server.get_text :=
       u "Home" ++ LF ++ u "About" ++ LF ++ u "A paragraph with the real content" |}.

(** A session that serves nothing: every request raises. *)
Definition broken_session : Client.ClientSession :=
  {| Client.list_tools := Raise (u "Connection closed");
     Client.session_call_tool := fun _ _ => Raise (u "Connection closed") |}.

(** A process launcher that always fails, and one that gives the server of
    this repository, down or not. *)
Definition no_process (params : Client.StdioServerParameters) : exc Client.ClientSession :=
  Raise (u "[Errno 2] No such file or directory").

Definition local_server (params : Client.StdioServerParameters) : exc Client.ClientSession :=
  Return (Client.server_session lower_latin1 offline).

(** ** The specification's wording, where it differs from the source *)

(** The residual as the specification words it: the search-intent keywords
    (find, search, look for) taken out of the query, then trimmed. *)
Definition spec_search_residual (query : str) : str :=
  strip (replace (u "look for") []
           (replace (u "search") []
              (replace (u "find") [] query))).

(** Ranking of a query with search intent, as the specification words it. *)
Definition search_ranking_as_stated (lower : str -> str) (query : str) : Prop :=
  contains (u "search") (lower query) || contains (u "find") (lower query) = true ->
  (spec_search_residual query <> [] ->
   head (Client._determine_relevant_tools lower query) = Some (u "search_profile_content"))
  /\ (spec_search_residual query = [] ->
      ~ In (u "search_profile_content") (Client._determine_relevant_tools lower query)).

(** The search capability, as the specification words it: every source
    whose extracted text contains the lower-cased query is in the result
    set. *)
Definition search_as_stated (lower : str -> str) (fetch : str -> Server.fetched)
    (query : str) : Prop :=
  forall section_name url,
    In (section_name, url) Server.profile_urls ->
    contains (lower query) (lower (Server._fetch_and_parse_content fetch url)) = true ->
    exists hit, In hit (Server.search_results lower fetch query) /\ Server.hit_url hit = url.

(** Content extraction, as the specification words it: never the empty
    string. *)
Definition extraction_as_stated (fetch : str -> Server.fetched) (url : str) : Prop :=
  Server._fetch_and_parse_content fetch url <> [].

(** The noise filter, as the specification words it: a fragment of the
    winning selector is dropped exactly when it has fewer than 10
    characters. *)
Definition noise_filter_as_stated (soup : Server.BeautifulSoup) : Prop :=
  forall selector fragment,
    Server.winning_selector soup Server.selectors = Some selector ->
    In fragment (Server.select soup selector) ->
    (In fragment (Server.content_parts soup Server.selectors) <-> 10 <= length fragment).

(** The link lookup for linkedin, as the specification words it: exactly the
    configured URL. *)
Definition linkedin_lookup_as_stated (lower : str -> str) (fetch : str -> Server.fetched) : Prop :=
  Server.handle_call_tool lower fetch (u "get_social_links")
    (Some {[ u "platform" := u "linkedin" ]})
  = Server.text_result (u "https://www.linkedin.com/in/haris-gulzar/").

(** The command surface, as the specification words it: the four literal
    commands, and every other non-empty line is a query. *)
Definition commands_as_stated (lower : str -> str) : Prop :=
  Client.command_of lower (u "/tools") = Client.Tools
  /\ Client.command_of lower (u "/help") = Client.Help
  /\ Client.command_of lower (u "/quit") = Client.Quit
  /\ Client.command_of lower (u "/exit") = Client.Quit
  /\ (forall line,
        ~ In line [u "/tools"; u "/help"; u "/quit"; u "/exit"] ->
        line <> [] ->
        exists user_input, Client.command_of lower line = Client.Ask user_input).

Import Server Client.

(** ** The strings *)

Example replace_ex : replace (u "find") [] (u "find a finding") = u " a ing".
Proof. reflexivity. Qed.
Example replace_overlap : replace (u "aa") (u "b") (u "aaa") = u "ba".
Proof. reflexivity. Qed.
Example split_ex : split (u "--") (u "a--b---c") = [u "a"; u "b"; u "-c"].
Proof. reflexivity. Qed.
Example split_empty : split (u "--") [] = [[]].
Proof. reflexivity. Qed.
Example strip_ex : strip (u "  a b ") = u "a b".
Proof. reflexivity. Qed.
Example title_ex : title (u "career_timeline") = u "Career_Timeline".
Proof. reflexivity. Qed.
Example contains_ex : contains (u "ear") (u "search") = true /\ contains [] [] = true.
Proof. split; reflexivity. Qed.


(** ** Truncated lists *)

Lemma firstn_nonempty_bounds {A : Type} (n : nat) (l : list A) :
  l <> [] -> 1 <= n -> 1 <= length (firstn n l) <= n.
Proof.
  intros Hl Hn. rewrite length_firstn. destruct l; [done|]. simpl. lia.
Qed.

(** ** Answer generation *)

Lemma json_truthy_not_None (v : json) : json_truthy v = true -> v <> JNull.
Proof. intros H ->. discriminate H. Qed.

Lemma _query_ollama_unavailable post query context :
  (forall url body, unavailable (post url body) = true) ->
  _query_ollama post query context = JNull.
Proof.
  intros Hdown. unfold _query_ollama.
  match goal with |- context [post ?a ?b] => specialize (Hdown a b); destruct (post a b) end;
    [done|]. simpl in Hdown. by destruct (status_code =? 200)%Z.
Qed.

Lemma _query_huggingface_unavailable post query context :
  (forall url body, unavailable (post url body) = true) ->
  _query_huggingface post query context = JNull.
Proof.
  intros Hdown. unfold _query_huggingface.
  match goal with |- context [post ?a ?b] => specialize (Hdown a b); destruct (post a b) end;
    [done|]. simpl in Hdown. by destruct (status_code =? 200)%Z.
Qed.

(** C1.  Whatever the two backends do, [query_llm_with_context] returns a
    value other than [None].  When neither backend gives a true answer, and
    so when both are unreachable or answer with a failure status, the value
    is the text of [_format_basic_response]: a fixed heading, the context,
    the query between quotes and a fixed note, a total function. *)
Theorem query_llm_with_context_answers
    (post : str -> json -> posted) (user_query context_data : str) :
  query_llm_with_context post user_query context_data <> JNull
  /\ (json_truthy (_query_ollama post user_query context_data) = false ->
      json_truthy (_query_huggingface post user_query context_data) = false ->
      query_llm_with_context post user_query context_data
      = JStr (_format_basic_response user_query context_data))
  /\ ((forall url body, unavailable (post url body) = true) ->
      query_llm_with_context post user_query context_data
      = JStr (_format_basic_response user_query context_data))
  /\ (exists heading note : str,
        heading <> [] /\ note <> []
        /\ _format_basic_response user_query context_data
           = heading ++ context_data ++ LF ++ LF
             ++ u "Your question: " ++ DQUOTE ++ user_query ++ DQUOTE
             ++ LF ++ LF ++ note).
Proof.
  split; [|split; [|split]].
  - unfold query_llm_with_context.
    destruct (json_truthy (_query_ollama _ _ _)) eqn:Ho;
      [by apply json_truthy_not_None|].
    destruct (json_truthy (_query_huggingface _ _ _)) eqn:Hh;
      [by apply json_truthy_not_None|]. discriminate.
  - intros Ho Hh. unfold query_llm_with_context. by rewrite Ho, Hh.
  - intros Hdown. unfold query_llm_with_context.
    rewrite _query_ollama_unavailable, _query_huggingface_unavailable by done.
    reflexivity.
  - eexists (u "Based on the available information about Haris Gulzar:" ++ LF ++ LF), _.
    split; [discriminate|]. split; [|unfold _format_basic_response;
      rewrite <- !app_assoc; reflexivity]. discriminate.
Qed.

Lemma query_llm_with_context_answers_witness :
  query_llm_with_context no_backend (u "find information about internships") (u "=== get_experience ===")
  = JStr (_format_basic_response (u "find information about internships") (u "=== get_experience ===")).
Proof.
  apply (proj1 (proj2 (proj2 (query_llm_with_context_answers no_backend _ _)))).
  intros url body. reflexivity.
Defined.

(** ** Relevance ranking *)

(** A loop that appends at most one value per item collects, in order, the
    values of the items that give one. *)
Lemma fold_left_collect {A B : Type} (step : list B -> A -> list B) (g : A -> option B) :
  (forall acc x, step acc x = acc ++ option_list (g x)) ->
  forall l init, fold_left step l init = init ++ omap g l.
Proof.
  intros Hstep l. induction l as [|x l IH]; intros init; simpl.
  - by rewrite app_nil_r.
  - rewrite IH, Hstep. destruct (g x); simpl; by rewrite <- app_assoc.
Qed.

Lemma keyword_tools_collect (query_lower : str) :
  keyword_tools query_lower = omap (entry_tool query_lower) tool_keywords.
Proof.
  unfold keyword_tools.
  rewrite (fold_left_collect _ (entry_tool query_lower)); [done|].
  intros acc [tool keywords]. unfold entry_tool. simpl.
  destruct (any_in keywords query_lower); simpl; [done | by rewrite app_nil_r].
Qed.

Lemma keyword_tools_in_table (query_lower tool : str) :
  In tool (keyword_tools query_lower) -> In tool (keys tool_keywords).
Proof.
  rewrite keyword_tools_collect. intros Hin.
  apply list_elem_of_In, list_elem_of_omap in Hin as ([t kws] & Hentry & Htool).
  unfold entry_tool in Htool. simpl in Htool.
  destruct (any_in kws query_lower); [|done]. injection Htool as <-.
  apply list_elem_of_In in Hentry. unfold keys. by apply (in_map fst) in Hentry.
Qed.

Lemma keyword_tools_none (query_lower : str) :
  (forall tool keywords keyword,
      In (tool, keywords) tool_keywords -> In keyword keywords ->
      contains keyword query_lower = false) ->
  keyword_tools query_lower = [].
Proof.
  intros Hnone. rewrite keyword_tools_collect.
  assert (Hall : Forall (fun entry => entry_tool query_lower entry = None) tool_keywords).
  { apply Forall_forall. intros [tool keywords] Hin%list_elem_of_In.
    unfold entry_tool. simpl.
    destruct (any_in keywords query_lower) eqn:Hany; [|done].
    unfold any_in in Hany. apply existsb_exists in Hany as (keyword & Hk & Hc).
    by rewrite (Hnone tool keywords keyword) in Hc. }
  clear Hnone. induction Hall as [|entry l Hentry _ IH]; [done|].
  simpl. rewrite Hentry. exact IH.
Qed.

Lemma In_firstn {A : Type} (n : nat) (x : A) (l : list A) :
  In x (firstn n l) -> In x l.
Proof.
  intros Hin. rewrite <- (firstn_skipn n l). apply in_or_app. by left.
Qed.



Example ranking_research_papers :
  _determine_relevant_tools lower_latin1 (u "Tell me about his research papers")
  = [u "search_profile_content"; u "get_profile_overview"; u "get_publications"].
Proof. vm_compute. reflexivity. Qed.

Lemma search_tool_not_keyword_tool (query_lower : str) :
  ~ In (u "search_profile_content")
      (match keyword_tools query_lower with
       | [] => [u "get_profile_overview"; u "get_experience"]
       | _ :: _ => keyword_tools query_lower
       end).
Proof.
  destruct (keyword_tools query_lower) as [|t ts] eqn:Hk.
  - vm_compute. intros [H|[H|[]]]; discriminate H.
  - rewrite <- Hk. intros Hin%keyword_tools_in_table.
    vm_compute in Hin. repeat (destruct Hin as [Hin|Hin]; [discriminate Hin|]).
    destruct Hin.
Qed.

(** C3, as the code has it.  For a query whose lower-cased form contains
    search or find: when the query is not empty once the phrases search for,
    find and look for are taken out of it as typed and the rest is trimmed,
    the search tool is first in the list; when nothing is left, the search
    tool is not in the list. *)
Theorem search_tool_first (lower : str -> str) (query : str) :
  contains (u "search") (lower query) || contains (u "find") (lower query) = true ->
  (search_residual query <> [] ->
   head (_determine_relevant_tools lower query) = Some (u "search_profile_content"))
  /\ (search_residual query = [] ->
      ~ In (u "search_profile_content") (_determine_relevant_tools lower query)).
Proof.
  intros Hintent.
  assert (Hany : any_in [u "find"; u "search"; u "look for"; u "about"] (lower query) = true).
  { unfold any_in. cbn [existsb].
    destruct (contains (u "search") (lower query)), (contains (u "find") (lower query));
      try discriminate Hintent; by rewrite ?orb_true_r. }
  unfold _determine_relevant_tools. rewrite Hany. split.
  - intros Hres. destruct (search_residual query); [done|]. reflexivity.
  - intros ->. cbn [truthy]. intros Hin%In_firstn.
    by apply search_tool_not_keyword_tool in Hin.
Qed.

Lemma search_tool_first_witness :
  head (_determine_relevant_tools lower_latin1 (u "find internships"))
  = Some (u "search_profile_content").
Proof.
  apply (search_tool_first lower_latin1 (u "find internships")).
  - vm_compute. reflexivity.
  - vm_compute. discriminate.
Defined.

Example search_for_alone :
  _determine_relevant_tools lower_latin1 (u "search for")
  = [u "get_profile_overview"; u "get_experience"].
Proof. vm_compute. reflexivity. Qed.

(** C3 as the specification words it fails on the query search: taking the
    keyword out leaves nothing, and the search tool is selected all the
    same, because the code takes out the phrase search for only. *)
Lemma search_ranking_as_stated_fails :
  ~ search_ranking_as_stated lower_latin1 (u "search").
Proof.
  intros H. destruct H as [_ H]; [vm_compute; reflexivity|].
  apply H; [vm_compute; reflexivity|].
  vm_compute. left. reflexivity.
Qed.

(** ** The chat loop and the calls it makes *)

Section KeepsCalls.

Variable P : exchange -> Prop.

Lemma keeps_calls_ret {A : Type} (a : A) : keeps_calls P (mret a).
Proof. intros st Hst. exact Hst. Qed.

Lemma keeps_calls_raise {A : Type} (e : str) : keeps_calls P (raise (A := A) e).
Proof. intros st Hst. exact Hst. Qed.

Lemma keeps_calls_print (o : output) : keeps_calls P (print o).
Proof. intros st Hst. exact Hst. Qed.

Lemma keeps_calls_record (x : exchange) : P x -> keeps_calls P (record_exchange x).
Proof.
  intros Hx st Hst. simpl. apply Forall_app. split; [exact Hst|].
  constructor; [exact Hx | constructor].
Qed.

Lemma keeps_calls_bind {A B : Type} (c : IO A) (f : A -> IO B) :
  keeps_calls P c -> (forall a, keeps_calls P (f a)) -> keeps_calls P (c ≫= f).
Proof.
  intros Hc Hf st Hst. unfold mbind, IO_bind.
  specialize (Hc st Hst). destruct (c st) as [[e|a] st']; simpl in *.
  - exact Hc.
  - by apply Hf.
Qed.

Lemma keeps_calls_try_except {A : Type} (body : IO A) (handler : str -> IO A) :
  keeps_calls P body -> (forall e, keeps_calls P (handler e)) ->
  keeps_calls P (try_except body handler).
Proof.
  intros Hbody Hhandler st Hst. unfold try_except.
  specialize (Hbody st Hst). destruct (body st) as [[e|a] st']; simpl in *.
  - by apply Hhandler.
  - exact Hbody.
Qed.

Lemma keeps_calls_for_each {A B : Type} (items : list A) (body : A -> IO B) :
  (forall x, keeps_calls P (body x)) -> keeps_calls P (for_each items body).
Proof.
  intros Hbody. induction items as [|x items IH]; simpl.
  - apply keeps_calls_ret.
  - apply keeps_calls_bind; [apply Hbody|]. intros b.
    apply keeps_calls_bind; [exact IH|]. intros bs. apply keeps_calls_ret.
Qed.

End KeepsCalls.

Create HintDb keeps.

#[local] Hint Resolve keeps_calls_ret keeps_calls_raise keeps_calls_print
  keeps_calls_bind keeps_calls_try_except keeps_calls_for_each : keeps.

Lemma search_without_query (lower : str -> str) (fetch : str -> fetched)
    (arguments : option (gmap str str)) :
  has_arguments arguments = false ->
  handle_call_tool lower fetch (u "search_profile_content") arguments
  = text_result (u "Error: Query parameter is required for search").
Proof.
  intros Hargs. unfold handle_call_tool, dispatch. rewrite Hargs. reflexivity.
Qed.

(** A query with search intent does make the loop call the search tool,
    first, and the reply is the error text. *)
Example find_calls_search_first :
  map (fun x => (ex_name x, ex_arguments x, ex_reply x))
      (exchanges
         (snd (chat_turn lower_latin1 no_backend
                 (Some (server_session lower_latin1 offline)) (u "find internships") io0)))
  = [ (u "search_profile_content", ∅, u "Error: Query parameter is required for search");
      (u "get_profile_overview", ∅,
       u "Profile Overview:" ++ LF ++ LF
       ++ u "Unable to fetch content from https://sites.google.com/view/haris-gulzar/home. Error: All connection attempts failed"
       ++ LF ++ LF ++ u "Source: https://sites.google.com/view/haris-gulzar/home");
      (u "get_experience", ∅,
       u "Work Experience:" ++ LF ++ LF
       ++ u "Unable to fetch content from https://sites.google.com/view/haris-gulzar/experience. Error: All connection attempts failed"
       ++ LF ++ LF ++ u "Source: https://sites.google.com/view/haris-gulzar/experience") ].
Proof. vm_compute. reflexivity. Qed.

(** ** Content extraction *)

Lemma keeps_length (text : str) : keeps text = true <-> 10 < length text.
Proof.
  unfold keeps. destruct text as [|c text]; simpl; [split; [done | lia]|].
  by rewrite Nat.ltb_lt.
Qed.

Lemma content_parts_winner (soup : BeautifulSoup) (sels : list str) (selector : str) :
  winning_selector soup sels = Some selector ->
  content_parts soup sels = List.filter keeps (select soup selector).
Proof.
  induction sels as [|s sels IH]; simpl; [done|].
  destruct (select soup s) as [|e es] eqn:Hsel.
  - exact IH.
  - intros [= <-]. by rewrite Hsel.
Qed.

Lemma content_parts_no_winner (soup : BeautifulSoup) (sels : list str) :
  winning_selector soup sels = None -> content_parts soup sels = [].
Proof.
  induction sels as [|s sels IH]; simpl; [done|].
  destruct (select soup s); [exact IH | done].
Qed.

Lemma content_parts_long (soup : BeautifulSoup) (sels : list str) :
  Forall (fun text => 10 < length text) (content_parts soup sels).
Proof.
  destruct (winning_selector soup sels) as [selector|] eqn:Hw.
  - rewrite (content_parts_winner _ _ _ Hw). apply Forall_forall.
    intros text Hin. apply list_elem_of_In, filter_In in Hin as [_ Hkeeps].
    by apply keeps_length.
  - rewrite (content_parts_no_winner _ _ Hw). constructor.
Qed.

Lemma join_nonempty (sep : str) (parts : list str) :
  parts <> [] -> Forall (fun text => text <> []) parts -> join sep parts <> [].
Proof.
  destruct parts as [|p rest]; [done|]. intros _ Hall.
  apply Forall_cons in Hall as [Hp _].
  destruct rest; simpl; [exact Hp|]. destruct p; [done | discriminate].
Qed.

Lemma startswith_app (t b : str) : startswith t (t ++ b) = true.
Proof.
  induction t as [|c t IH]; simpl; [by destruct b|].
  by rewrite N.eqb_refl, IH.
Qed.

Lemma contains_app_r (t a s : str) : contains t s = true -> contains t (a ++ s) = true.
Proof.
  intros Hs. induction a as [|c a IH]; simpl; [exact Hs|].
  rewrite IH. apply orb_true_r.
Qed.

Lemma contains_middle (t a b : str) : contains t (a ++ t ++ b) = true.
Proof.
  apply contains_app_r. destruct t as [|c t]; [by destruct b|].
  change (contains (c :: t) ((c :: t) ++ b))
    with (startswith (c :: t) ((c :: t) ++ b) || contains (c :: t) (t ++ b)).
  by rewrite startswith_app.
Qed.

Lemma contains_join (sep : str) (parts : list str) (t : str) :
  In t parts -> contains t (join sep parts) = true.
Proof.
  induction parts as [|p rest IH]; [done|]. intros [->|Hin].
  - destruct rest as [|q rest].
    + simpl. rewrite <- (app_nil_r t) at 2. apply (contains_middle t [] []).
    + change (join sep (t :: q :: rest)) with (t ++ sep ++ join sep (q :: rest)).
      apply (contains_middle t []).
  - destruct rest as [|q rest]; [done|].
    change (join sep (p :: q :: rest)) with (p ++ sep ++ join sep (q :: rest)).
    apply contains_app_r, contains_app_r. by apply IH.
Qed.

(** C6, as the code has it.  On a failed fetch the routine returns its
    error text, which is not empty.  On a page where some fragment survives
    the filter, it returns at most the first 20 survivors joined by a blank
    line, which is not empty.  Otherwise it returns the first 2000
    characters of the text of the page, which is empty exactly when the
    page has no text. *)
Theorem extraction_bounded (fetch : str -> fetched) (url : str) :
  match fetch url with
  | FetchRaises e =>
      _fetch_and_parse_content fetch url
      = u "Unable to fetch content from " ++ url ++ u ". Error: " ++ e
      /\ _fetch_and_parse_content fetch url <> []
  | FetchPage soup =>
      (content_parts soup selectors <> []
       /\ _fetch_and_parse_content fetch url
          = join (LF ++ LF) (firstn 20 (content_parts soup selectors))
       /\ length (firstn 20 (content_parts soup selectors)) <= 20
       /\ _fetch_and_parse_content fetch url <> [])
      \/ (content_parts soup selectors = []
          /\ _fetch_and_parse_content fetch url = firstn 2000 (get_text soup)
          /\ length (_fetch_and_parse_content fetch url) <= 2000
          /\ (_fetch_and_parse_content fetch url = [] <-> get_text soup = []))
  end.
Proof.
  unfold _fetch_and_parse_content. destruct (fetch url) as [e|soup].
  - split; [reflexivity | discriminate].
  - pose proof (content_parts_long soup selectors) as Hlong.
    destruct (content_parts soup selectors) as [|part parts] eqn:Hparts.
    + right. unfold slice_to. repeat split; try done.
      * rewrite length_firstn. lia.
      * by destruct (get_text soup).
      * by intros ->.
    + left. repeat split; try done.
      * rewrite length_firstn. lia.
      * apply join_nonempty; [done|]. apply Forall_forall.
        intros text Hin%list_elem_of_In%In_firstn ->.
        rewrite Forall_forall in Hlong.
        apply list_elem_of_In, Hlong in Hin. simpl in Hin. lia.
Qed.

Example extraction_first_twenty :
  _fetch_and_parse_content (site_of (paragraphs_page (repeat (u "twelve chars") 25))) (u "x")
  = join (LF ++ LF) (repeat (u "twelve chars") 20).
Proof. vm_compute. reflexivity. Qed.

(** C6 as the specification words it fails on a page without text and
    without an element any selector finds: the routine returns the empty
    string. *)
Lemma extraction_as_stated_fails :
  ~ extraction_as_stated (site_of (paragraphs_page []))
      (u "https://sites.google.com/view/haris-gulzar/home").
Proof. intros H. apply H. reflexivity. Qed.

(** C7, as the code has it.  Of the fragments of the selector that ends the
    loop, the ones that survive the filter are exactly those of more than 10
    characters; each of the first 20 survivors occurs in the text returned. *)
Theorem noise_filter_keeps_long_fragments (soup : BeautifulSoup) (selector : str) :
  winning_selector soup selectors = Some selector ->
  (forall fragment,
      In fragment (content_parts soup selectors)
      <-> In fragment (select soup selector) /\ 10 < length fragment)
  /\ (forall fetch url fragment,
        fetch url = FetchPage soup ->
        In fragment (firstn 20 (content_parts soup selectors)) ->
        contains fragment (_fetch_and_parse_content fetch url) = true).
Proof.
  intros Hw. split.
  - intros fragment. rewrite (content_parts_winner _ _ _ Hw), filter_In.
    by rewrite keeps_length.
  - intros fetch url fragment Hfetch Hin. unfold _fetch_and_parse_content.
    rewrite Hfetch. destruct (content_parts soup selectors) as [|part parts] eqn:Hparts.
    + by destruct Hin.
    + by apply contains_join.
Qed.

Lemma noise_filter_keeps_long_fragments_witness :
  In (u "eleven char")
     (content_parts (paragraphs_page [u "0123456789"; u "eleven char"]) selectors).
Proof.
  apply (noise_filter_keeps_long_fragments
           (paragraphs_page [u "0123456789"; u "eleven char"]) (u "p") eq_refl).
  split; [right; left; reflexivity | vm_compute; lia].
Defined.

(** C7 as the specification words it fails on a fragment of exactly 10
    characters: the filter drops it. *)
Lemma noise_filter_as_stated_fails :
  ~ noise_filter_as_stated (paragraphs_page [u "0123456789"; u "eleven char"]).
Proof.
  intros H.
  destruct (H (u "p") (u "0123456789") eq_refl (or_introl eq_refl)) as [_ Hkept].
  assert (Hin : In (u "0123456789")
                   (content_parts (paragraphs_page [u "0123456789"; u "eleven char"]) selectors))
    by (apply Hkept; vm_compute; lia).
  vm_compute in Hin. destruct Hin as [Hin|[]]. discriminate Hin.
Qed.

(** ** Search *)

Lemma search_results_collect (lower : str -> str) (fetch : str -> fetched) (query : str) :
  search_results lower fetch query = omap (source_hit lower fetch query) profile_urls.
Proof.
  unfold search_results.
  rewrite (fold_left_collect _ (source_hit lower fetch query)); [done|].
  intros acc [section_name url]. unfold source_hit. simpl.
  destruct (contains _ _); [|by rewrite app_nil_r].
  destruct (relevant_paragraphs _ _ _); simpl; [by rewrite app_nil_r | done].
Qed.

Lemma relevant_paragraphs_nonempty (lower : str -> str) (search_query content : str) :
  relevant_paragraphs lower search_query content <> []
  <-> exists p, In p (split (LF ++ LF) content)
                /\ contains search_query (lower p) = true
                /\ 20 < length (strip p).
Proof.
  unfold relevant_paragraphs. split.
  - intros Hne.
    destruct (List.filter _ _) as [|p ps] eqn:Hf; [done|].
    assert (Hin : In p (p :: ps)) by (by left).
    rewrite <- Hf in Hin. apply filter_In in Hin as [Hin Hcond].
    apply andb_true_iff in Hcond as [Hc Hlen%Nat.ltb_lt]. eauto.
  - intros (p & Hin & Hc & Hlen) Hnil.
    assert (Hp : In p (List.filter
                         (fun p => contains search_query (lower p) && (20 <? length (strip p)))
                         (split (LF ++ LF) content))).
    { apply filter_In. split; [exact Hin|].
      apply andb_true_iff. split; [exact Hc | by apply Nat.ltb_lt]. }
    rewrite Hnil in Hp. destruct Hp.
Qed.

Lemma source_hit_Some (lower : str -> str) (fetch : str -> fetched) (query : str)
    (source : str * str) (hit : search_hit) :
  source_hit lower fetch query source = Some hit ->
  hit = {| hit_section := title (fst source);
           hit_url := snd source;
           hit_matches :=
             firstn 3 (relevant_paragraphs lower (lower query)
                         (_fetch_and_parse_content fetch (snd source))) |}
  /\ contains (lower query) (lower (_fetch_and_parse_content fetch (snd source))) = true
  /\ relevant_paragraphs lower (lower query) (_fetch_and_parse_content fetch (snd source)) <> [].
Proof.
  unfold source_hit. destruct (contains _ _); [|done].
  destruct (relevant_paragraphs _ _ _) as [|p ps]; [done|].
  intros [= <-]. by repeat split.
Qed.

Lemma source_hit_None_not_contained (lower : str -> str) (fetch : str -> fetched)
    (query : str) (source : str * str) :
  contains (lower query) (lower (_fetch_and_parse_content fetch (snd source))) = false ->
  source_hit lower fetch query source = None.
Proof. intros Hc. unfold source_hit. by rewrite Hc. Qed.

Lemma fold_left_extends {A : Type} (step : str -> A -> str) :
  (forall acc x, exists t, step acc x = acc ++ t) ->
  forall l init, exists t, fold_left step l init = init ++ t.
Proof.
  intros Hstep l. induction l as [|x l IH]; intros init; simpl.
  - exists []. by rewrite app_nil_r.
  - destruct (Hstep init x) as [t ->]. destruct (IH (init ++ t)) as [t' ->].
    exists (t ++ t'). by rewrite app_assoc.
Qed.

Lemma render_hit_extends (acc : str) (result : search_hit) :
  exists t, render_hit acc result = acc ++ t.
Proof.
  unfold render_hit.
  destruct (fold_left_extends
              (fun acc m => acc ++ BULLET ++ u " " ++ slice_to 200 m ++ u "..." ++ LF)
              (fun acc m => ex_intro _ _ eq_refl)
              (hit_matches result)
              (acc ++ u "**" ++ hit_section result ++ u ":**" ++ LF)) as [t ->].
  eexists. rewrite <- !app_assoc. reflexivity.
Qed.

(** C5, as the code has it.  A source is in the result set exactly when its
    extracted text contains the lower-cased query and one of its paragraphs
    (the pieces between blank lines) contains the lower-cased query and has
    more than 20 characters once trimmed; the entry then carries the title
    of the section and at most three such paragraphs.  When no source's text
    contains the lower-cased query, the result is exactly the one text
    result with the no-results message; in every case the result is one
    text that is not empty. *)
Theorem search_lists_sources_with_long_match
    (lower : str -> str) (fetch : str -> fetched) (query : str) :
  (forall section_name url,
      In (section_name, url) profile_urls ->
      (exists hit, In hit (search_results lower fetch query) /\ hit_url hit = url)
      <-> (contains (lower query) (lower (_fetch_and_parse_content fetch url)) = true
           /\ exists p, In p (split (LF ++ LF) (_fetch_and_parse_content fetch url))
                        /\ contains (lower query) (lower p) = true
                        /\ 20 < length (strip p)))
  /\ (forall hit,
        In hit (search_results lower fetch query) ->
        exists section_name,
          In (section_name, hit_url hit) profile_urls
          /\ hit_section hit = title section_name
          /\ hit_matches hit
             = firstn 3 (relevant_paragraphs lower (lower query)
                           (_fetch_and_parse_content fetch (hit_url hit))))
  /\ ((forall section_name url,
          In (section_name, url) profile_urls ->
          contains (lower query) (lower (_fetch_and_parse_content fetch url)) = false) ->
      _search_profile_content lower fetch query
      = Return (text_result (u "No results found for '" ++ query
                             ++ u "' in the profile content.")))
  /\ (search_results lower fetch query = [] ->
      _search_profile_content lower fetch query = Return (text_result (no_results query)))
  /\ (exists t, _search_profile_content lower fetch query = Return (text_result t)
                /\ t <> []).
Proof.
  split; [|split; [|split; [|split]]].
  - intros section_name url Hsource. rewrite search_results_collect. split.
    + intros (hit & Hin & Hurl).
      apply list_elem_of_In, list_elem_of_omap in Hin as ([s' url'] & _ & Hhit).
      apply source_hit_Some in Hhit as (-> & Hc & Hrel). simpl in *. subst url'.
      split; [exact Hc|]. by apply relevant_paragraphs_nonempty in Hrel.
    + intros (Hc & Hp). apply relevant_paragraphs_nonempty in Hp.
      destruct (source_hit lower fetch query (section_name, url)) as [hit|] eqn:Hhit.
      * exists hit. split.
        -- apply list_elem_of_In, list_elem_of_omap.
           exists (section_name, url). split; [by apply list_elem_of_In | exact Hhit].
        -- by apply source_hit_Some in Hhit as (-> & _ & _).
      * unfold source_hit in Hhit. simpl in Hhit. rewrite Hc in Hhit.
        by destruct (relevant_paragraphs _ _ _).
  - intros hit Hin. rewrite search_results_collect in Hin.
    apply list_elem_of_In, list_elem_of_omap in Hin as ([section_name url] & Hsource & Hhit).
    apply source_hit_Some in Hhit as (-> & _ & _).
    cbn [hit_url hit_section hit_matches fst snd].
    exists section_name. split; [by apply list_elem_of_In | done].
  - intros Hnone. unfold _search_profile_content.
    rewrite search_results_collect.
    assert (Hall : Forall (fun source => source_hit lower fetch query source = None)
                     profile_urls).
    { apply Forall_forall. intros [section_name url] Hin%list_elem_of_In.
      apply source_hit_None_not_contained. simpl. by apply (Hnone section_name). }
    clear Hnone.
    assert (Hempty : omap (source_hit lower fetch query) profile_urls = []).
    { induction Hall as [|source l Hsource _ IH]; [done|].
      simpl. by rewrite Hsource. }
    rewrite Hempty. reflexivity.
  - intros Hempty. unfold _search_profile_content. by rewrite Hempty.
  - unfold _search_profile_content.
    destruct (search_results lower fetch query) as [|hit hits].
    + eexists. split; [reflexivity | discriminate].
    + destruct (fold_left_extends render_hit render_hit_extends (hit :: hits)
                  (u "Search results for '" ++ query ++ u "':" ++ LF ++ LF)) as [t ->].
      eexists. split; [reflexivity | discriminate].
Qed.

Lemma search_lists_sources_with_long_match_witness :
  _search_profile_content lower_latin1 offline (u "Internships")
  = Return (text_result (u "No results found for 'Internships' in the profile content.")).
Proof.
  apply (proj1 (proj2 (proj2
           (search_lists_sources_with_long_match lower_latin1 offline (u "Internships"))))).
  intros section_name url Hsource.
  repeat (destruct Hsource as [Hsource|Hsource];
          [injection Hsource as <- <-; vm_compute; reflexivity|]).
  destruct Hsource.
Defined.

Example search_finds_long_paragraph :
  map hit_url
      (search_results lower_latin1
         (site_of (paragraphs_page [u "Research intern at a robotics laboratory"]))
         (u "INTERN"))
  = map snd profile_urls.
Proof. vm_compute. reflexivity. Qed.

(** C5 as the specification words it fails when the only paragraph with the
    query has 20 characters or fewer: the text of the source contains the
    query, and the source is left out. *)
Lemma search_as_stated_fails :
  ~ search_as_stated lower_latin1 (site_of (paragraphs_page [u "hello world"])) (u "hello").
Proof.
  intros H.
  destruct (H (u "overview") (u "https://sites.google.com/view/haris-gulzar/home"))
    as (hit & Hin & _).
  - left. reflexivity.
  - vm_compute. reflexivity.
  - vm_compute in Hin. destruct Hin.
Qed.

(** ** Dispatch and link lookup *)

Lemma get_social_links_platform (lower : str -> str) (fetch : str -> fetched)
    (arguments : option (gmap str str)) :
  handle_call_tool lower fetch (u "get_social_links") arguments
  = match _get_social_links
            (if has_arguments arguments
             then default (u "all") (args_get arguments (u "platform"))
             else u "all") with
    | Return result => result
    | Raise e => text_result (u "Error: " ++ e)
    end.
Proof. reflexivity. Qed.

(** C8, as the code has it.  For the platform linkedin the lookup returns
    the label Linkedin, a colon and the configured URL; for unknown_xyz it
    returns a message that names the platform and lists the four valid
    ones; and a call without the platform argument returns what a call with
    the platform all returns. *)
Theorem get_social_links_lookup (lower : str -> str) (fetch : str -> fetched) :
  handle_call_tool lower fetch (u "get_social_links")
    (Some {[ u "platform" := u "linkedin" ]})
  = text_result (u "Linkedin: " ++ u "https://www.linkedin.com/in/haris-gulzar/")
  /\ dict_get social_urls (u "linkedin") = Some (u "https://www.linkedin.com/in/haris-gulzar/")
  /\ handle_call_tool lower fetch (u "get_social_links")
       (Some {[ u "platform" := u "unknown_xyz" ]})
     = text_result (u "Platform 'unknown_xyz' not found. Available platforms: linkedin, instagram, facebook, youtube")
  /\ (forall arguments,
        args_get arguments (u "platform") = None ->
        handle_call_tool lower fetch (u "get_social_links") arguments
        = handle_call_tool lower fetch (u "get_social_links")
            (Some {[ u "platform" := u "all" ]})).
Proof.
  split; [|split; [|split]].
  - vm_compute. reflexivity.
  - vm_compute. reflexivity.
  - vm_compute. reflexivity.
  - intros arguments Hnone. rewrite !get_social_links_platform, Hnone.
    replace (has_arguments (Some {[u "platform" := u "all"]})) with true
      by (vm_compute; reflexivity).
    replace (args_get (Some {[u "platform" := u "all"]}) (u "platform"))
      with (Some (u "all")) by (vm_compute; reflexivity).
    by destruct (has_arguments arguments).
Qed.

Lemma get_social_links_lookup_witness :
  handle_call_tool lower_latin1 offline (u "get_social_links") None
  = handle_call_tool lower_latin1 offline (u "get_social_links")
      (Some {[ u "platform" := u "all" ]})
  /\ handle_call_tool lower_latin1 offline (u "get_social_links") (Some ∅)
     = handle_call_tool lower_latin1 offline (u "get_social_links")
         (Some {[ u "platform" := u "all" ]}).
Proof.
  split.
  - apply (proj2 (proj2 (proj2 (get_social_links_lookup lower_latin1 offline)))).
    reflexivity.
  - apply (proj2 (proj2 (proj2 (get_social_links_lookup lower_latin1 offline)))).
    vm_compute. reflexivity.
Defined.

(** C8 as the specification words it fails: the text returned for linkedin
    is not the bare URL, it starts with the label. *)
Lemma linkedin_lookup_as_stated_fails :
  ~ linkedin_lookup_as_stated lower_latin1 offline.
Proof. intros H. vm_compute in H. discriminate H. Qed.

(** C9.  A call whose name is none of the six published names returns one
    text result, the word Error followed by the message that names the
    unknown tool; the arguments and the network play no part. *)
Theorem unknown_tool_reported (lower : str -> str) (fetch : str -> fetched)
    (name : str) (arguments : option (gmap str str)) :
  ~ In name tool_names ->
  handle_call_tool lower fetch name arguments
  = text_result (u "Error: " ++ u "Unknown tool: " ++ name).
Proof.
  intros Hnew. unfold handle_call_tool, dispatch, str_eqb.
  repeat (case_bool_decide;
          [exfalso; apply Hnew; subst name; vm_compute; tauto|]).
  reflexivity.
Qed.

Lemma unknown_tool_reported_witness :
  handle_call_tool lower_latin1 offline (u "get_weather") (Some {[ u "city" := u "Tokyo" ]})
  = text_result (u "Error: Unknown tool: get_weather").
Proof.
  apply (unknown_tool_reported lower_latin1 offline (u "get_weather")).
  vm_compute. intros H.
  repeat (destruct H as [H|H]; [discriminate H|]). destruct H.
Defined.

(** ** The command surface *)

(** How [command_of] reads a line, by the trimmed line and its lower-cased
    form. *)
Lemma command_of_cases (lower : str -> str) (line : str) :
  let user_input := strip line in
  let typed := lower user_input in
  (In typed [u "/quit"; u "/exit"; u "quit"; u "exit"]
   /\ command_of lower line = Quit)
  \/ (~ In typed [u "/quit"; u "/exit"; u "quit"; u "exit"]
      /\ ((typed = u "/help" /\ command_of lower line = Help)
          \/ (typed <> u "/help"
              /\ ((typed = u "/tools" /\ command_of lower line = Tools)
                  \/ (typed <> u "/tools"
                      /\ ((user_input = [] /\ command_of lower line = Blank)
                          \/ (user_input <> []
                              /\ command_of lower line = Ask user_input))))))).
Proof.
  intros user_input typed. unfold command_of. fold user_input. fold typed.
  destruct (existsb (str_eqb typed) [u "/quit"; u "/exit"; u "quit"; u "exit"]) eqn:Hquit.
  - left. split; [|reflexivity].
    apply existsb_exists in Hquit as (c & Hin & Heq).
    unfold str_eqb in Heq. apply bool_decide_eq_true_1 in Heq. by subst c.
  - right. split.
    { intros Hin. assert (Hex : existsb (str_eqb typed)
                                  [u "/quit"; u "/exit"; u "quit"; u "exit"] = true).
      { apply existsb_exists. exists typed. split; [exact Hin|].
        unfold str_eqb. by apply bool_decide_eq_true_2. }
      by rewrite Hquit in Hex. }
    unfold str_eqb. case_bool_decide as Hhelp; [by left|]. right. split; [done|].
    case_bool_decide as Htools; [by left|]. right. split; [done|].
    destruct user_input as [|c rest]; [by left|]. right. by split.
Qed.

Example commands_recognized :
  command_of lower_latin1 (u "/tools") = Tools
  /\ command_of lower_latin1 (u "/help") = Help
  /\ command_of lower_latin1 (u "/quit") = Quit
  /\ command_of lower_latin1 (u "/exit") = Quit
  /\ command_of lower_latin1 (u " /Help ") = Help
  /\ command_of lower_latin1 (u "EXIT") = Quit
  /\ command_of lower_latin1 (u "/toolbox") = Ask (u "/toolbox").
Proof. vm_compute. repeat split. Qed.

(** C10 as the specification words it fails on the line quit: it is not
    one of the four literal commands and it is not empty, yet it ends the
    session instead of being asked as a query. *)
Lemma commands_as_stated_fails : ~ commands_as_stated lower_latin1.
Proof.
  intros (_ & _ & _ & _ & H).
  destruct (H (u "quit")) as [user_input Hask].
  - vm_compute. intros Hin.
    repeat (destruct Hin as [Hin|Hin]; [discriminate Hin|]). destruct Hin.
  - discriminate.
  - vm_compute in Hask. discriminate Hask.
Qed.

(** ** More on relevance ranking *)

Lemma omap_entry_sublist (query_lower : str) (table : list (str * list str)) :
  omap (entry_tool query_lower) table `sublist_of` keys table.
Proof.
  induction table as [|[tool keywords] table IH]; simpl; [constructor|].
  unfold entry_tool at 1. simpl.
  destruct (any_in keywords query_lower); by constructor.
Qed.

Lemma candidates_sublist (query_lower : str) :
  match keyword_tools query_lower with
  | [] => [u "get_profile_overview"; u "get_experience"]
  | _ :: _ => keyword_tools query_lower
  end `sublist_of` keys tool_keywords.
Proof.
  destruct (keyword_tools query_lower) as [|t ts] eqn:Hk.
  - do 2 apply sublist_skip. apply sublist_nil_l.
  - rewrite <- Hk, keyword_tools_collect. apply omap_entry_sublist.
Qed.

Lemma tool_keywords_NoDup : NoDup (u "search_profile_content" :: keys tool_keywords).
Proof.
  repeat (apply NoDup_cons; split;
          [rewrite list_elem_of_In; vm_compute; intros Hin;
           repeat (destruct Hin as [Hin|Hin]; [discriminate Hin|]); destruct Hin|]).
  apply NoDup_nil_2.
Qed.

(** X1.  Every name that [_determine_relevant_tools] selects is a name the
    server publishes in [handle_list_tools]: the client never asks for a tool
    the server does not have. *)
Theorem relevant_tools_in_catalog (lower : str -> str) (query tool : str) :
  In tool (_determine_relevant_tools lower query) -> In tool tool_names.
Proof.
  intros Hin. apply In_firstn in Hin.
  assert (Hcand : forall t,
             In t (match keyword_tools (lower query) with
                   | [] => [u "get_profile_overview"; u "get_experience"]
                   | _ :: _ => keyword_tools (lower query)
                   end) -> In t tool_names).
  { intros t Ht. apply list_elem_of_In in Ht.
    pose proof (elem_of_sublist _ _ _ Ht (candidates_sublist (lower query))) as Hkeys.
    apply list_elem_of_In in Hkeys. vm_compute in Hkeys. vm_compute.
    repeat (destruct Hkeys as [Hkeys|Hkeys]; [subst t; tauto|]). destruct Hkeys. }
  unfold _determine_relevant_tools in Hin. cbv zeta in Hin.
  destruct (any_in [u "find"; u "search"; u "look for"; u "about"] (lower query));
    [destruct (truthy (search_residual query))|]; auto.
  destruct Hin as [<-|Hin]; [vm_compute; tauto | auto].
Qed.

Lemma relevant_tools_in_catalog_witness :
  In (u "get_publications") tool_names.
Proof.
  apply (relevant_tools_in_catalog lower_latin1 (u "Tell me about his research papers")).
  vm_compute. tauto.
Defined.

(** X2.  The selected list never names a tool twice, and apart from the
    search tool, which can only come first, it keeps the order of the
    keyword table. *)
Theorem relevant_tools_ordered (lower : str -> str) (query : str) :
  NoDup (_determine_relevant_tools lower query)
  /\ exists rest,
       (_determine_relevant_tools lower query = rest
        \/ _determine_relevant_tools lower query = u "search_profile_content" :: rest)
       /\ rest `sublist_of` keys tool_keywords.
Proof.
  pose proof (candidates_sublist (lower query)) as Hsub.
  unfold _determine_relevant_tools.
  set (cands := match keyword_tools (lower query) with
                | [] => [u "get_profile_overview"; u "get_experience"]
                | _ :: _ => keyword_tools (lower query)
                end) in *.
  assert (Hshape : forall l, l = cands \/ l = u "search_profile_content" :: cands ->
            NoDup (firstn 3 l)
            /\ exists rest, (firstn 3 l = rest \/ firstn 3 l = u "search_profile_content" :: rest)
                            /\ rest `sublist_of` keys tool_keywords).
  { intros l [->| ->].
    - split.
      + eapply sublist_NoDup; [|apply sublist_take].
        eapply sublist_NoDup; [|exact Hsub].
        pose proof tool_keywords_NoDup as Hnd. by apply NoDup_cons in Hnd as [_ Hnd].
      + exists (firstn 3 cands). split; [by left|].
        etrans; [apply sublist_take | exact Hsub].
    - split.
      + eapply sublist_NoDup; [|apply sublist_take].
        eapply sublist_NoDup; [apply tool_keywords_NoDup|]. by apply sublist_skip.
      + exists (firstn 2 cands). split; [by right|].
        etrans; [apply sublist_take | exact Hsub]. }
  destruct (any_in _ (lower query)); [destruct (truthy _)|]; apply Hshape; auto.
Qed.

Lemma firstn_In_mono {A : Type} (n m : nat) (x : A) (l : list A) :
  n <= m -> In x (firstn n l) -> In x (firstn m l).
Proof.
  revert m l. induction n as [|n IH]; intros m l Hle Hin; [destruct Hin|].
  destruct m as [|m]; [lia|]. destruct l as [|y l]; [destruct Hin|].
  simpl in *. destruct Hin as [->|Hin]; [by left|]. right. apply IH; [lia | exact Hin].
Qed.

Lemma omap_firstn_In {A B : Type} (f : A -> option B) (n : nat) (e : A) (t : B) (l : list A) :
  In e (firstn n l) -> f e = Some t -> In t (firstn n (omap f l)).
Proof.
  revert n. induction l as [|x l IH]; intros n Hin Hf.
  - destruct n; destruct Hin.
  - destruct n as [|n]; [destruct Hin|]. simpl in Hin. destruct Hin as [->|Hin].
    + simpl. rewrite Hf. by left.
    + specialize (IH n Hin Hf). simpl. destruct (f x).
      * simpl. by right.
      * apply (firstn_In_mono n); [lia | exact IH].
Qed.

(** X3.  The cap of three never cuts the first two tools of the keyword
    table: when a keyword of get_profile_overview or of get_experience occurs
    in the lower-cased query, that tool is selected. *)
Theorem first_two_tools_never_cut (lower : str -> str) (query tool : str)
    (keywords : list str) :
  In (tool, keywords) (firstn 2 tool_keywords) ->
  any_in keywords (lower query) = true ->
  In tool (_determine_relevant_tools lower query).
Proof.
  intros Hentry Hany.
  assert (Hcand : In tool (firstn 2 (keyword_tools (lower query)))).
  { rewrite keyword_tools_collect.
    apply (omap_firstn_In _ _ (tool, keywords)); [exact Hentry|].
    unfold entry_tool. simpl. by rewrite Hany. }
  unfold _determine_relevant_tools.
  destruct (keyword_tools (lower query)) as [|t ts] eqn:Hk;
    [simpl in Hcand; contradiction|].
  destruct (any_in [u "find"; u "search"; u "look for"; u "about"] (lower query));
    [cbv zeta; destruct (truthy (search_residual query))|].
  - unfold insert0. right. exact Hcand.
  - apply (firstn_In_mono 2); [lia | exact Hcand].
  - apply (firstn_In_mono 2); [lia | exact Hcand].
Qed.

Lemma first_two_tools_never_cut_witness :
  In (u "get_experience")
     (_determine_relevant_tools lower_latin1
        (u "find his work, research, history and social contact")).
Proof.
  apply (first_two_tools_never_cut lower_latin1 _ (u "get_experience")
           [u "experience"; u "work"; u "job"; u "career"; u "professional"; u "employment"]).
  - right. left. reflexivity.
  - vm_compute. reflexivity.
Defined.

Example cap_cuts_later_tools :
  _determine_relevant_tools lower_latin1
    (u "find his work, research, history and social contact")
  = [u "search_profile_content"; u "get_experience"; u "get_publications"].
Proof. vm_compute. reflexivity. Qed.

(** ** Trimming *)

Lemma lstrip_head (s : str) (c : N) (rest : str) :
  lstrip s = c :: rest -> isspace c = false.
Proof.
  induction s as [|d s IH]; simpl; [done|].
  destruct (isspace d) eqn:Hd; [exact IH|]. by intros [= <- _].
Qed.

Lemma lstrip_suffix (s : str) : exists pre, s = pre ++ lstrip s.
Proof.
  induction s as [|d s [pre IH]]; simpl; [by exists []|].
  destruct (isspace d).
  - exists (d :: pre). simpl. by rewrite <- IH.
  - by exists [].
Qed.

Lemma rstrip_last (s rest : str) (c : N) :
  rstrip s = rest ++ [c] -> isspace c = false.
Proof.
  unfold rstrip. intros Hr.
  apply (f_equal (@rev N)) in Hr. rewrite rev_involutive, rev_app_distr in Hr.
  simpl in Hr. by apply lstrip_head in Hr.
Qed.

Lemma rstrip_prefix (s : str) : exists post, s = rstrip s ++ post.
Proof.
  unfold rstrip. destruct (lstrip_suffix (rev s)) as [pre Hpre].
  exists (rev pre). rewrite <- rev_app_distr, <- Hpre. by rewrite rev_involutive.
Qed.

Lemma strip_no_outer_space (s : str) : no_outer_space (strip s).
Proof.
  unfold strip. split.
  - intros c rest Hs. destruct (rstrip_prefix (lstrip s)) as [post Hpost].
    rewrite Hs in Hpost. simpl in Hpost. by apply lstrip_head in Hpost.
  - intros rest c Hs. by apply rstrip_last in Hs.
Qed.

(** X4.  What the chat loop passes on as a query is the line trimmed, as
    typed: it is not empty and has no white space at either end. *)
Theorem query_is_trimmed (lower : str -> str) (line user_input : str) :
  command_of lower line = Ask user_input ->
  user_input = strip line /\ user_input <> [] /\ no_outer_space user_input.
Proof.
  unfold command_of. intros Hcmd.
  destruct (existsb _ _); [done|].
  destruct (str_eqb (lower (strip line)) (u "/help")); [done|].
  destruct (str_eqb (lower (strip line)) (u "/tools")); [done|].
  destruct (strip line) as [|c rest] eqn:Hstrip; [done|].
  simpl in Hcmd. injection Hcmd as <-. split; [done|]. split; [done|].
  rewrite <- Hstrip. apply strip_no_outer_space.
Qed.

Lemma query_is_trimmed_witness :
  u "Where did he work?" = strip (u "   Where did he work?  ")
  /\ u "Where did he work?" <> []
  /\ no_outer_space (u "Where did he work?").
Proof.
  apply (query_is_trimmed lower_latin1). vm_compute. reflexivity.
Defined.

(** X5.  What [_query_huggingface] returns is [None] or a string without
    white space at either end, whatever the endpoint answers. *)
Theorem huggingface_answer_stripped (post : str -> json -> posted) (query context : str) :
  _query_huggingface post query context = JNull
  \/ exists t, _query_huggingface post query context = JStr t /\ no_outer_space t.
Proof.
  unfold _query_huggingface.
  destruct (post _ _) as [e|status_code body]; [by left|].
  destruct (status_code =? 200)%Z; [|by left].
  destruct body as [[| | | |[|first items]|]|]; try by left.
  destruct first as [| | | | |fields]; try by left.
  destruct (default (JStr []) (dict_get fields (u "generated_text")));
    try by left.
  right. eexists. split; [reflexivity|]. apply strip_no_outer_space.
Qed.

(** ** More on the chat loop *)

Lemma handler_continues (e : str) (st : io) :
  (print (Line (u "Error: " ++ e));; mret Continue) st
  = (Return Continue,
     {| exchanges := exchanges st; printed := printed st ++ [Line (u "Error: " ++ e)] |}).
Proof. reflexivity. Qed.

Lemma chat_turn_returns (lower : str -> str) (post : str -> json -> posted)
    (session : option ClientSession) (line : str) (st : io) :
  exists c st', chat_turn lower post session line st = (Return c, st').
Proof.
  unfold chat_turn, try_except.
  match goal with |- context [match ?body st with _ => _ end] => destruct (body st) as [[e|c] st'] end.
  - rewrite handler_continues. eauto.
  - eauto.
Qed.

Lemma chat_loop_returns (lower : str -> str) (post : str -> json -> posted)
    (session : option ClientSession) (lines : list str) (st : io) :
  exists c st', chat_loop lower post session lines st = (Return c, st').
Proof.
  revert st. induction lines as [|line rest IH]; intros st; simpl.
  - by exists Continue, st.
  - unfold mbind, IO_bind.
    destruct (chat_turn_returns lower post session line st) as (c & st' & ->).
    destruct c; [by exists Break, st' | apply IH].
Qed.

Lemma interactive_chat_returns (lower : str -> str) (post : str -> json -> posted)
    (session : option ClientSession) (lines : list str) (st : io) :
  exists c st', interactive_chat lower post session lines st = (Return c, st').
Proof.
  unfold interactive_chat, mbind, IO_bind.
  destruct (for_each banner print st) as [[e|bs] st'] eqn:Hbanner.
  - vm_compute in Hbanner. discriminate Hbanner.
  - apply chat_loop_returns.
Qed.

(** X6.  The chat never ends with an exception: whatever is typed, whether
    or not a session is open and whatever the session and the backends do,
    every failure inside a pass of [interactive_chat] is caught there. *)
Theorem interactive_chat_never_raises (lower : str -> str) (post : str -> json -> posted)
    (session : option ClientSession) (lines : list str) :
  never_raises (interactive_chat lower post session lines).
Proof.
  intros st.
  destruct (interactive_chat_returns lower post session lines st) as (c & st' & ->).
  by exists c.
Qed.

Lemma chat_turn_quit (lower : str -> str) (post : str -> json -> posted)
    (session : option ClientSession) (line : str) (st : io) :
  command_of lower line = Quit ->
  chat_turn lower post session line st = (Return Break, st).
Proof. intros Hq. unfold chat_turn, try_except. by rewrite Hq. Qed.

(** X7.  Once a line is read as a quit command the loop ends: the lines
    typed after it change nothing. *)
Theorem chat_loop_stops_at_quit (lower : str -> str) (post : str -> json -> posted)
    (session : option ClientSession) (before : list str) (line : str)
    (after : list str) (st : io) :
  command_of lower line = Quit ->
  chat_loop lower post session (before ++ line :: after) st
  = chat_loop lower post session (before ++ [line]) st.
Proof.
  intros Hq. revert st. induction before as [|l before IH]; intros st; simpl.
  - unfold mbind, IO_bind. by rewrite chat_turn_quit.
  - unfold mbind, IO_bind.
    destruct (chat_turn lower post session l st) as [[e|[|]] st']; auto.
Qed.

Lemma chat_loop_stops_at_quit_witness :
  chat_loop lower_latin1 no_backend (Some (server_session lower_latin1 offline))
    ([u "/help"] ++ u "Exit" :: [u "find internships"]) io0
  = chat_loop lower_latin1 no_backend (Some (server_session lower_latin1 offline))
      ([u "/help"] ++ [u "Exit"]) io0.
Proof.
  apply (chat_loop_stops_at_quit lower_latin1). vm_compute. reflexivity.
Defined.

Section SameCalls.

Lemma same_calls_ret {A : Type} (a : A) : same_calls (mret a : IO A).
Proof. intros st. reflexivity. Qed.

Lemma same_calls_raise {A : Type} (e : str) : same_calls (raise (A := A) e).
Proof. intros st. reflexivity. Qed.

Lemma same_calls_print (o : output) : same_calls (print o).
Proof. intros st. reflexivity. Qed.

Lemma same_calls_bind {A B : Type} (c : IO A) (f : A -> IO B) :
  same_calls c -> (forall a, same_calls (f a)) -> same_calls (c ≫= f).
Proof.
  intros Hc Hf st. unfold mbind, IO_bind. specialize (Hc st).
  destruct (c st) as [[e|a] st']; simpl in *; [exact Hc|].
  by rewrite Hf.
Qed.

Lemma same_calls_try_except {A : Type} (body : IO A) (handler : str -> IO A) :
  same_calls body -> (forall e, same_calls (handler e)) ->
  same_calls (try_except body handler).
Proof.
  intros Hbody Hhandler st. unfold try_except. specialize (Hbody st).
  destruct (body st) as [[e|a] st']; simpl in *; [|exact Hbody].
  by rewrite Hhandler.
Qed.

Lemma same_calls_for_each {A B : Type} (items : list A) (body : A -> IO B) :
  (forall x, same_calls (body x)) -> same_calls (for_each items body).
Proof.
  intros Hbody. induction items as [|x items IH]; simpl.
  - apply same_calls_ret.
  - apply same_calls_bind; [apply Hbody|]. intros b.
    apply same_calls_bind; [exact IH|]. intros bs. apply same_calls_ret.
Qed.

End SameCalls.

Lemma get_available_tools_same_calls (session : option ClientSession) :
  same_calls (get_available_tools session).
Proof.
  unfold get_available_tools. destruct session as [s|]; [|apply same_calls_raise].
  destruct (list_tools s); [apply same_calls_raise | apply same_calls_ret].
Qed.

(** X8.  Only a query reaches the tools: a line read as a quit command, as
    /help, as /tools or as blank makes no tool call, whatever the session
    does. *)
Theorem commands_make_no_call (lower : str -> str) (post : str -> json -> posted)
    (session : option ClientSession) (line : str) (st : io) :
  (forall user_input, command_of lower line <> Ask user_input) ->
  exchanges (snd (chat_turn lower post session line st)) = exchanges st.
Proof.
  intros Hcmd. revert st. change (same_calls (chat_turn lower post session line)).
  unfold chat_turn. apply same_calls_try_except.
  - destruct (command_of lower line) as [| | | |user_input].
    + apply same_calls_ret.
    + repeat (apply same_calls_bind; [apply same_calls_print | intros _]).
      apply same_calls_ret.
    + apply same_calls_bind; [apply get_available_tools_same_calls | intros tools_list].
      apply same_calls_bind; [apply same_calls_print | intros _].
      apply same_calls_bind; [|intros _; apply same_calls_ret].
      apply same_calls_for_each. intros [name descr]. apply same_calls_print.
    + apply same_calls_ret.
    + by destruct (Hcmd user_input).
  - intros e. apply same_calls_bind; [apply same_calls_print | intros _].
    apply same_calls_ret.
Qed.

Lemma commands_make_no_call_witness :
  exchanges (snd (chat_turn lower_latin1 no_backend
                    (Some (server_session lower_latin1 offline)) (u " /TOOLS ") io0))
  = exchanges io0.
Proof.
  apply (commands_make_no_call lower_latin1). intros user_input.
  vm_compute. discriminate.
Defined.

Lemma call_tool_connected (s : ClientSession) (tool_name : str) (st : io) :
  call_tool (Some s) tool_name None st
  = (Return (reply_of s tool_name),
     {| exchanges := exchanges st ++ [exchange_of s tool_name];
        printed := printed st |}).
Proof. reflexivity. Qed.

Lemma gather_context_connected (s : ClientSession) (tool_names : list str) (st : io) :
  for_each tool_names
    (fun tool_name =>
       print (Line (u "Fetching information from " ++ tool_name ++ u "..."));;
       tool_result ← call_tool (Some s) tool_name None;
       mret (u "=== " ++ tool_name ++ u " ===" ++ LF ++ tool_result)) st
  = (Return (map (fun tool_name => context_part (exchange_of s tool_name)) tool_names),
     {| exchanges := exchanges st ++ map (exchange_of s) tool_names;
        printed := printed st ++ map fetching_line tool_names |}).
Proof.
  revert st. induction tool_names as [|tool_name rest IH]; intros st.
  - destruct st. simpl. by rewrite !app_nil_r.
  - cbn [for_each]. unfold mbind at 1, IO_bind at 1.
    unfold mbind at 1, IO_bind at 1.
    cbn [print]. unfold mbind at 1, IO_bind at 1.
    rewrite call_tool_connected. cbn [mret IO_ret].
    unfold mbind at 1, IO_bind at 1. rewrite IH. cbn [exchanges printed map].
    unfold mret, IO_ret. by rewrite <- !app_assoc.
Qed.

(** X9.  A query in an open session: the loop calls the selected tools in
    the order of the ranking, each without arguments, and no other; it prints
    one line per call and then the answer, which is made from the query and
    from the replies joined in that same order, each under the name of its
    tool.  A call that the session fails on contributes its error text and
    does not stop the turn. *)
Theorem query_turn_connected (lower : str -> str) (post : str -> json -> posted)
    (s : ClientSession) (line user_input : str) (st : io) :
  command_of lower line = Ask user_input ->
  chat_turn lower post (Some s) line st
  = (Return Continue,
     {| exchanges :=
          exchanges st ++ map (exchange_of s) (_determine_relevant_tools lower user_input);
        printed :=
          printed st
          ++ map fetching_line (_determine_relevant_tools lower user_input)
          ++ [ Line (u "Generating response...");
               Assistant
                 (query_llm_with_context post user_input
                    (join (LF ++ LF)
                       (map (fun tool_name => context_part (exchange_of s tool_name))
                          (_determine_relevant_tools lower user_input)))) ] |}).
Proof.
  intros Hcmd. unfold chat_turn, try_except. rewrite Hcmd.
  unfold mbind at 1, IO_bind at 1. rewrite gather_context_connected.
  unfold mbind, IO_bind, print, mret, IO_ret. cbn [exchanges printed].
  rewrite <- !app_assoc. reflexivity.
Qed.

Lemma query_turn_connected_witness :
  map ex_reply
    (exchanges (snd (chat_turn lower_latin1 no_backend (Some broken_session)
                       (u "who is he?") io0)))
  = [u "Error: Connection closed"].
Proof.
  rewrite (query_turn_connected lower_latin1 no_backend broken_session
             (u "who is he?") (u "who is he?") io0); [|vm_compute; reflexivity].
  vm_compute. reflexivity.
Defined.

Lemma relevant_tools_nonempty (lower : str -> str) (query : str) :
  _determine_relevant_tools lower query <> [].
Proof.
  intros Hnil.
  assert (Hlen : 1 <= length (_determine_relevant_tools lower query) <= 3).
  { unfold _determine_relevant_tools. apply firstn_nonempty_bounds; [|lia].
    destruct (any_in [u "find"; u "search"; u "look for"; u "about"] (lower query));
      [cbv zeta; destruct (truthy (search_residual query))|];
      unfold insert0; try discriminate;
      destruct (keyword_tools (lower query)); discriminate. }
  rewrite Hnil in Hlen. simpl in Hlen. lia.
Qed.

(** X10.  A query typed when no session is open: the loop announces the
    first selected tool, the call raises, and the turn ends with the line
    Error: Not connected to server; no call is made, no answer is generated,
    and the loop goes on. *)
Theorem query_turn_not_connected (lower : str -> str) (post : str -> json -> posted)
    (line user_input : str) (st : io) :
  command_of lower line = Ask user_input ->
  exists tool_name,
    head (_determine_relevant_tools lower user_input) = Some tool_name
    /\ chat_turn lower post None line st
       = (Return Continue,
          {| exchanges := exchanges st;
             printed := printed st
                        ++ [ fetching_line tool_name;
                             Line (u "Error: Not connected to server") ] |}).
Proof.
  intros Hcmd. pose proof (relevant_tools_nonempty lower user_input) as Hne.
  unfold chat_turn, try_except. rewrite Hcmd.
  destruct (_determine_relevant_tools lower user_input) as [|tool_name rest]; [done|].
  exists tool_name. split; [reflexivity|].
  cbn [for_each]. unfold mbind, IO_bind, print, call_tool, raise, mret, IO_ret.
  cbn [exchanges printed]. unfold fetching_line.
  rewrite <- !app_assoc. reflexivity.
Qed.

Lemma query_turn_not_connected_witness :
  exists tool_name,
    head (_determine_relevant_tools lower_latin1 (u "his career")) = Some tool_name
    /\ chat_turn lower_latin1 no_backend None (u "his career") io0
       = (Return Continue,
          {| exchanges := exchanges io0;
             printed := printed io0
                        ++ [ fetching_line tool_name;
                             Line (u "Error: Not connected to server") ] |}).
Proof.
  apply (query_turn_not_connected lower_latin1). vm_compute. reflexivity.
Defined.

(** ** More on answer generation *)

Lemma _query_ollama_field (post : str -> json -> posted) (query context : str)
    (fields : list (str * json)) :
  (forall body, post ollama_url body = PostResponse 200 (Some (JObj fields))) ->
  _query_ollama post query context = default (JStr []) (dict_get fields (u "response")).
Proof. intros Hpost. unfold _query_ollama. by rewrite Hpost. Qed.

(** X11.  An answer of the local model that is missing, null or empty is no
    answer: when the local endpoint replies with status 200 and a JSON object
    whose response field has no true value, the chain goes on to the remote
    backend and, if that gives nothing either, to the formatted text. *)
Theorem empty_local_answer_falls_through (post : str -> json -> posted)
    (user_query context_data : str) (fields : list (str * json)) :
  (forall body, post ollama_url body = PostResponse 200 (Some (JObj fields))) ->
  json_truthy (default (JStr []) (dict_get fields (u "response"))) = false ->
  query_llm_with_context post user_query context_data
  = if json_truthy (_query_huggingface post user_query context_data)
    then _query_huggingface post user_query context_data
    else JStr (_format_basic_response user_query context_data).
Proof.
  intros Hpost Hempty. unfold query_llm_with_context.
  by rewrite (_query_ollama_field _ _ _ fields Hpost), Hempty.
Qed.

(** X12.  A true answer of the local model is final: when the local endpoint
    replies with status 200 and a JSON object whose response field holds a
    true value, that value is the answer, as it is, whatever the remote
    endpoint would say. *)
Theorem local_answer_wins (post : str -> json -> posted)
    (user_query context_data : str) (fields : list (str * json)) (answer : json) :
  (forall body, post ollama_url body = PostResponse 200 (Some (JObj fields))) ->
  dict_get fields (u "response") = Some answer ->
  json_truthy answer = true ->
  query_llm_with_context post user_query context_data = answer.
Proof.
  intros Hpost Hfield Htrue. unfold query_llm_with_context.
  rewrite (_query_ollama_field _ _ _ fields Hpost), Hfield. simpl.
  by rewrite Htrue.
Qed.

Lemma empty_local_answer_falls_through_witness :
  query_llm_with_context (local_model [(u "response", JStr [])]) (u "who is he?") (u "ctx")
  = JStr (_format_basic_response (u "who is he?") (u "ctx")).
Proof.
  rewrite (empty_local_answer_falls_through _ _ _ [(u "response", JStr [])]).
  - reflexivity.
  - intros body. reflexivity.
  - reflexivity.
Defined.

Lemma local_answer_wins_witness :
  query_llm_with_context (local_model [(u "done", JBool true); (u "response", JNum 42)])
    (u "who is he?") (u "ctx")
  = JNum 42.
Proof.
  apply (local_answer_wins _ _ _ [(u "done", JBool true); (u "response", JNum 42)]).
  - intros body. reflexivity.
  - vm_compute. reflexivity.
  - reflexivity.
Defined.

(** ** More on dispatch *)

Lemma content_tool_result (lower : str -> str) (fetch : str -> fetched)
    (tool heading key : str) (arguments : option (gmap str str)) :
  In (tool, heading, key) content_tools ->
  exists url,
    dict_get profile_urls key = Some url
    /\ handle_call_tool lower fetch tool arguments
       = text_result (heading ++ LF ++ LF ++ _fetch_and_parse_content fetch url
                      ++ LF ++ LF ++ u "Source: " ++ url).
Proof.
  intros Hin.
  repeat (destruct Hin as [Hin|Hin];
          [injection Hin as <- <- <-; eexists; split; reflexivity|]).
  destruct Hin.
Qed.

(** X13.  The four page tools ignore their arguments and cannot fail: each
    returns its heading, the extracted text and the address of its page; when
    the page cannot be fetched the extracted text is the message about the
    failure, inside the same frame. *)
Theorem content_tools_always_answer (lower : str -> str) (fetch : str -> fetched)
    (tool heading key : str) :
  In (tool, heading, key) content_tools ->
  exists url,
    dict_get profile_urls key = Some url
    /\ (forall arguments,
          handle_call_tool lower fetch tool arguments
          = text_result (heading ++ LF ++ LF ++ _fetch_and_parse_content fetch url
                         ++ LF ++ LF ++ u "Source: " ++ url))
    /\ (forall e arguments,
          fetch url = FetchRaises e ->
          handle_call_tool lower fetch tool arguments
          = text_result (heading ++ LF ++ LF
                         ++ (u "Unable to fetch content from " ++ url ++ u ". Error: " ++ e)
                         ++ LF ++ LF ++ u "Source: " ++ url)).
Proof.
  intros Hin.
  destruct (content_tool_result lower fetch tool heading key None Hin) as (url & Hurl & _).
  exists url. split; [exact Hurl|]. split.
  - intros arguments.
    destruct (content_tool_result lower fetch tool heading key arguments Hin)
      as (url' & Hurl' & ->).
    rewrite Hurl in Hurl'. by injection Hurl' as <-.
  - intros e arguments Hfetch.
    destruct (content_tool_result lower fetch tool heading key arguments Hin)
      as (url' & Hurl' & ->).
    rewrite Hurl in Hurl'. injection Hurl' as <-.
    unfold _fetch_and_parse_content. by rewrite Hfetch.
Qed.

Lemma content_tools_always_answer_witness :
  exists url,
    dict_get profile_urls (u "publications") = Some url
    /\ (forall arguments,
          handle_call_tool lower_latin1 offline (u "get_publications") arguments
          = text_result (u "Publications and Conferences:" ++ LF ++ LF
                         ++ _fetch_and_parse_content offline url
                         ++ LF ++ LF ++ u "Source: " ++ url))
    /\ (forall e arguments,
          offline url = FetchRaises e ->
          handle_call_tool lower_latin1 offline (u "get_publications") arguments
          = text_result (u "Publications and Conferences:" ++ LF ++ LF
                         ++ (u "Unable to fetch content from " ++ url ++ u ". Error: " ++ e)
                         ++ LF ++ LF ++ u "Source: " ++ url)).
Proof.
  apply (content_tools_always_answer lower_latin1 offline).
  right. right. left. reflexivity.
Defined.

Lemma social_platform_in_table (platform : str) :
  existsb (str_eqb platform) (keys social_urls) = true <-> In platform (keys social_urls).
Proof.
  rewrite existsb_exists. split.
  - intros (k & Hin & Heq). unfold str_eqb in Heq.
    apply bool_decide_eq_true_1 in Heq. by subst k.
  - intros Hin. exists platform. split; [exact Hin|].
    unfold str_eqb. by apply bool_decide_eq_true_2.
Qed.

Lemma _get_social_links_text (platform : str) :
  exists c rest,
    _get_social_links platform = Return (text_result (c :: rest)) /\ c <> 69%N.
Proof.
  unfold _get_social_links.
  destruct (str_eqb platform (u "all")).
  - eexists _, _. split; [vm_compute; reflexivity | discriminate].
  - destruct (existsb (str_eqb platform) (keys social_urls)) eqn:Hin.
    + apply social_platform_in_table in Hin.
      repeat (destruct Hin as [Hin|Hin];
              [subst platform; eexists _, _; split;
               [vm_compute; reflexivity | discriminate]|]).
      destruct Hin.
    + eexists _, _. split; [reflexivity | discriminate].
Qed.

Lemma _search_profile_content_text (lower : str -> str) (fetch : str -> fetched)
    (query : str) :
  exists c rest,
    _search_profile_content lower fetch query = Return (text_result (c :: rest))
    /\ c <> 69%N.
Proof.
  unfold _search_profile_content.
  destruct (search_results lower fetch query) as [|hit hits].
  - eexists _, _. split; [reflexivity | discriminate].
  - destruct (fold_left_extends render_hit render_hit_extends (hit :: hits)
                (u "Search results for '" ++ query ++ u "':" ++ LF ++ LF)) as [t ->].
    eexists _, _. split; [reflexivity | discriminate].
Qed.

Lemma args_get_has_arguments (arguments : option (gmap str str)) (k v : str) :
  args_get arguments k = Some v -> has_arguments arguments = true.
Proof.
  destruct arguments as [a|]; [|done]. simpl. intros Hk.
  apply negb_true_iff, bool_decide_eq_false_2. intros ->.
  by rewrite lookup_empty in Hk.
Qed.

(** The text of an answer to a published tool: never empty, and never the
    report of an unknown tool. *)
Lemma published_tool_text (lower : str -> str) (fetch : str -> fetched)
    (name : str) (arguments : option (gmap str str)) :
  In name tool_names ->
  exists c rest,
    handle_call_tool lower fetch name arguments = text_result (c :: rest)
    /\ c :: rest <> u "Error: " ++ u "Unknown tool: " ++ name.
Proof.
  intros Hin.
  destruct Hin as [<-|[<-|[<-|[<-|[<-|[<-|[]]]]]]].
  1-4: eexists _, _; split; [reflexivity | discriminate].
  - rewrite get_social_links_platform.
    destruct (_get_social_links_text
                (if has_arguments arguments
                 then default (u "all") (args_get arguments (u "platform"))
                 else u "all")) as (c & rest & -> & Hc).
    exists c, rest. split; [reflexivity|]. intros [= Hc' _]. by apply Hc.
  - unfold handle_call_tool, dispatch.
    replace (str_eqb (u "search_profile_content") (u "get_profile_overview"))
      with false by reflexivity.
    replace (str_eqb (u "search_profile_content") (u "get_experience"))
      with false by reflexivity.
    replace (str_eqb (u "search_profile_content") (u "get_publications"))
      with false by reflexivity.
    replace (str_eqb (u "search_profile_content") (u "get_career_timeline"))
      with false by reflexivity.
    replace (str_eqb (u "search_profile_content") (u "get_social_links"))
      with false by reflexivity.
    replace (str_eqb (u "search_profile_content") (u "search_profile_content"))
      with true by reflexivity.
    destruct (negb (has_arguments arguments)
              || negb (bool_decide (is_Some (args_get arguments (u "query"))))) eqn:Hmissing.
    + eexists _, _. split; [reflexivity|]. vm_compute. discriminate.
    + apply orb_false_iff in Hmissing as [_ Hq].
      apply negb_false_iff, bool_decide_eq_true_1 in Hq. destruct Hq as [query Hq].
      unfold args_getitem. rewrite Hq. unfold mbind, exc_bind.
      destruct (_search_profile_content_text lower fetch query) as (c & rest & -> & Hc).
      exists c, rest. split; [reflexivity|]. intros [= Hc' _]. by apply Hc.
Qed.

(** X14.  The report of an unknown tool is returned for the names that
    [handle_list_tools] does not publish, and for no other: every published
    tool is handled. *)
Theorem unknown_tool_iff_not_published (lower : str -> str) (fetch : str -> fetched)
    (name : str) (arguments : option (gmap str str)) :
  handle_call_tool lower fetch name arguments
  = text_result (u "Error: " ++ u "Unknown tool: " ++ name)
  <-> ~ In name tool_names.
Proof.
  split.
  - intros Hres Hin.
    destruct (published_tool_text lower fetch name arguments Hin) as (c & rest & Heq & Hne).
    rewrite Heq in Hres. apply Hne. unfold text_result in Hres. congruence.
  - intros Hnew. unfold handle_call_tool, dispatch, str_eqb.
    repeat (case_bool_decide;
            [exfalso; apply Hnew; subst name; vm_compute; tauto|]).
    reflexivity.
Qed.

Lemma handle_call_tool_text (lower : str -> str) (fetch : str -> fetched)
    (name : str) (arguments : option (gmap str str)) :
  exists c rest, handle_call_tool lower fetch name arguments = text_result (c :: rest).
Proof.
  destruct (decide (In name tool_names)) as [Hin|Hnew].
  - destruct (published_tool_text lower fetch name arguments Hin) as (c & rest & -> & _).
    by exists c, rest.
  - eexists _, _. unfold handle_call_tool, dispatch, str_eqb.
    repeat (case_bool_decide;
            [exfalso; apply Hnew; subst name; vm_compute; tauto|]).
    reflexivity.
Qed.

(** X15.  Every call is answered with exactly one text, and the text is
    not empty: whatever the name, the arguments and the network, nothing is
    raised and nothing is left blank. *)
Theorem handle_call_tool_one_text (lower : str -> str) (fetch : str -> fetched)
    (name : str) (arguments : option (gmap str str)) :
  exists t, content (handle_call_tool lower fetch name arguments) = [ {| text := t |} ]
            /\ t <> [].
Proof.
  destruct (handle_call_tool_text lower fetch name arguments) as (c & rest & ->).
  exists (c :: rest). split; [reflexivity | discriminate].
Qed.

(** ** More on link lookup *)

Lemma platform_argument (platform : str) :
  has_arguments (Some {[ u "platform" := platform ]}) = true
  /\ args_get (Some {[ u "platform" := platform ]}) (u "platform") = Some platform.
Proof.
  assert (Hget : args_get (Some {[ u "platform" := platform ]}) (u "platform")
                 = Some platform).
  { simpl. apply lookup_singleton_eq. }
  split; [|exact Hget]. by apply args_get_has_arguments in Hget.
Qed.

Lemma handle_platform (lower : str -> str) (fetch : str -> fetched) (platform : str) :
  handle_call_tool lower fetch (u "get_social_links") (Some {[ u "platform" := platform ]})
  = match _get_social_links platform with
    | Return result => result
    | Raise e => text_result (u "Error: " ++ e)
    end.
Proof.
  rewrite get_social_links_platform.
  destruct (platform_argument platform) as [-> ->]. reflexivity.
Qed.

(** X16.  The link lookup by platform: for each platform of the table the
    answer is its name with a capital, a colon and its address; for any other
    platform than all, the answer says that the platform was not found and
    lists the four names.  The names are compared as they are, so a name in
    another letter case is not found. *)
Theorem social_link_by_platform (lower : str -> str) (fetch : str -> fetched) :
  (forall platform url,
      In (platform, url) social_urls ->
      handle_call_tool lower fetch (u "get_social_links")
        (Some {[ u "platform" := platform ]})
      = text_result (title platform ++ u ": " ++ url))
  /\ (forall platform,
        platform <> u "all" ->
        ~ In platform (keys social_urls) ->
        handle_call_tool lower fetch (u "get_social_links")
          (Some {[ u "platform" := platform ]})
        = text_result (u "Platform '" ++ platform
                       ++ u "' not found. Available platforms: linkedin, instagram, facebook, youtube")).
Proof.
  split.
  - intros platform url Hin. rewrite handle_platform.
    repeat (destruct Hin as [Hin|Hin]; [injection Hin as <- <-; reflexivity|]).
    destruct Hin.
  - intros platform Hall Hnew. rewrite handle_platform. unfold _get_social_links.
    unfold str_eqb at 1. rewrite bool_decide_eq_false_2 by exact Hall.
    destruct (existsb (str_eqb platform) (keys social_urls)) eqn:Hin.
    + by apply social_platform_in_table in Hin.
    + reflexivity.
Qed.

Lemma social_link_by_platform_witness :
  handle_call_tool lower_latin1 offline (u "get_social_links")
    (Some {[ u "platform" := u "LinkedIn" ]})
  = text_result (u "Platform 'LinkedIn' not found. Available platforms: linkedin, instagram, facebook, youtube")
  /\ handle_call_tool lower_latin1 offline (u "get_social_links")
       (Some {[ u "platform" := u "youtube" ]})
     = text_result (title (u "youtube") ++ u ": " ++ u "https://www.youtube.com/@japanviaharis").
Proof.
  split.
  - apply (proj2 (social_link_by_platform lower_latin1 offline)).
    + discriminate.
    + vm_compute. intros Hin.
      repeat (destruct Hin as [Hin|Hin]; [discriminate Hin|]). destruct Hin.
  - apply (proj1 (social_link_by_platform lower_latin1 offline)).
    right. right. right. left. reflexivity.
Defined.

(** ** More on content extraction *)

Lemma winning_selector_split (soup : BeautifulSoup) (sels : list str) (selector : str) :
  winning_selector soup sels = Some selector ->
  exists before after,
    sels = before ++ selector :: after
    /\ Forall (fun s => select soup s = []) before
    /\ select soup selector <> [].
Proof.
  induction sels as [|s sels IH]; simpl; [done|].
  destruct (select soup s) as [|e es] eqn:Hsel.
  - intros Hw. destruct (IH Hw) as (before & after & -> & Hbefore & Hne).
    exists (s :: before), after. split; [done|]. split; [|exact Hne].
    by constructor.
  - intros [= <-]. exists [], sels. split; [done|]. split; [constructor|].
    by rewrite Hsel.
Qed.

Lemma filter_sublist_of {A : Type} (f : A -> bool) (l : list A) :
  List.filter f l `sublist_of` l.
Proof.
  induction l as [|e es IH]; simpl; [constructor|].
  destruct (f e); by constructor.
Qed.

(** X17.  One selector supplies all the fragments: the first of the list
    that finds any element.  The selectors before it found nothing, the ones
    after it are not looked at, and the fragments are its elements of more
    than 10 characters, in the order of the page. *)
Theorem fragments_from_first_matching_selector (soup : BeautifulSoup) (selector : str) :
  winning_selector soup selectors = Some selector ->
  exists before after,
    selectors = before ++ selector :: after
    /\ Forall (fun s => select soup s = []) before
    /\ select soup selector <> []
    /\ content_parts soup selectors = List.filter keeps (select soup selector)
    /\ content_parts soup selectors `sublist_of` select soup selector.
Proof.
  intros Hw. destruct (winning_selector_split _ _ _ Hw) as (before & after & Hs & Hb & Hne).
  exists before, after. repeat split; try done.
  - by apply content_parts_winner.
  - rewrite (content_parts_winner _ _ _ Hw). apply filter_sublist_of.
Qed.

(** X18.  When the selector that ends the loop finds only fragments of 10
    characters or fewer, the routine does not try the next selector: it
    returns the first 2000 characters of the whole text of the page. *)
Theorem short_fragments_fall_back_to_page_text (fetch : str -> fetched) (url : str)
    (soup : BeautifulSoup) (selector : str) :
  fetch url = FetchPage soup ->
  winning_selector soup selectors = Some selector ->
  (forall fragment, In fragment (select soup selector) -> length fragment <= 10) ->
  _fetch_and_parse_content fetch url = firstn 2000 (get_text soup).
Proof.
  intros Hfetch Hw Hshort. unfold _fetch_and_parse_content. rewrite Hfetch.
  rewrite (content_parts_winner _ _ _ Hw).
  destruct (List.filter keeps (select soup selector)) as [|part parts] eqn:Hf;
    [reflexivity|].
  assert (Hin : In part (List.filter keeps (select soup selector)))
    by (rewrite Hf; by left).
  apply filter_In in Hin as [Hin Hkeeps]. apply keeps_length in Hkeeps.
  specialize (Hshort part Hin). lia.
Qed.

Lemma fragments_from_first_matching_selector_witness :
  exists before after,
    selectors = before ++ u ".zfr3Q" :: after
    /\ Forall (fun s => select short_labels_page s = []) before
    /\ select short_labels_page (u ".zfr3Q") <> []
    /\ content_parts short_labels_page selectors
       = List.filter keeps (select short_labels_page (u ".zfr3Q"))
    /\ content_parts short_labels_page selectors
       `sublist_of` select short_labels_page (u ".zfr3Q").
Proof.
  apply (fragments_from_first_matching_selector short_labels_page (u ".zfr3Q")).
  reflexivity.
Defined.

Lemma short_fragments_fall_back_to_page_text_witness :
  _fetch_and_parse_content (site_of short_labels_page) (u "https://example.org/")
  = firstn 2000 (get_text short_labels_page).
Proof.
  apply (short_fragments_fall_back_to_page_text _ _ short_labels_page (u ".zfr3Q")).
  - reflexivity.
  - reflexivity.
  - intros fragment [<-|[<-|[]]]; vm_compute; lia.
Defined.

(** ** More on search *)

Lemma source_hits_in_order (lower : str -> str) (fetch : str -> fetched) (query : str)
    (sources : list (str * str)) :
  map hit_url (omap (source_hit lower fetch query) sources) `sublist_of` map snd sources.
Proof.
  induction sources as [|source sources IH]; simpl; [constructor|].
  destruct (source_hit lower fetch query source) as [hit|] eqn:Hhit.
  - apply source_hit_Some in Hhit as (-> & _ & _). simpl. by constructor.
  - by constructor.
Qed.

(** X19.  The result set of a search holds at most one entry per source, in
    the order of the sources, so at most four; every entry holds between one
    and three matches, and every match is a paragraph of the text of its
    source that contains the lower-cased query and has more than 20
    characters once trimmed. *)
Theorem search_hits_shape (lower : str -> str) (fetch : str -> fetched) (query : str) :
  map hit_url (search_results lower fetch query) `sublist_of` map snd profile_urls
  /\ length (search_results lower fetch query) <= 4
  /\ (forall hit,
        In hit (search_results lower fetch query) ->
        1 <= length (hit_matches hit) <= 3
        /\ forall m,
             In m (hit_matches hit) ->
             In m (split (LF ++ LF) (_fetch_and_parse_content fetch (hit_url hit)))
             /\ contains (lower query) (lower m) = true
             /\ 20 < length (strip m)).
Proof.
  rewrite search_results_collect.
  pose proof (source_hits_in_order lower fetch query profile_urls) as Horder.
  split; [exact Horder|]. split.
  - apply sublist_length in Horder. by rewrite !length_map in Horder.
  - intros hit Hin.
    apply list_elem_of_In, list_elem_of_omap in Hin as (source & _ & Hhit).
    apply source_hit_Some in Hhit as (-> & _ & Hrel).
    cbn [hit_matches hit_url]. split.
    + apply firstn_nonempty_bounds; [exact Hrel | lia].
    + intros m Hm. apply In_firstn in Hm. unfold relevant_paragraphs in Hm.
      apply filter_In in Hm as [Hsplit Hcond].
      apply andb_true_iff in Hcond as [Hc Hlen]. apply Nat.ltb_lt in Hlen.
      by repeat split.
Qed.

Lemma search_tool_dispatch (lower : str -> str) (fetch : str -> fetched)
    (arguments : option (gmap str str)) :
  handle_call_tool lower fetch (u "search_profile_content") arguments
  = match args_get arguments (u "query") with
    | Some query =>
        match _search_profile_content lower fetch query with
        | Return result => result
        | Raise e => text_result (u "Error: " ++ e)
        end
    | None => text_result (u "Error: Query parameter is required for search")
    end.
Proof.
  unfold handle_call_tool, dispatch.
  replace (str_eqb (u "search_profile_content") (u "get_profile_overview"))
    with false by reflexivity.
  replace (str_eqb (u "search_profile_content") (u "get_experience"))
    with false by reflexivity.
  replace (str_eqb (u "search_profile_content") (u "get_publications"))
    with false by reflexivity.
  replace (str_eqb (u "search_profile_content") (u "get_career_timeline"))
    with false by reflexivity.
  replace (str_eqb (u "search_profile_content") (u "get_social_links"))
    with false by reflexivity.
  replace (str_eqb (u "search_profile_content") (u "search_profile_content"))
    with true by reflexivity.
  destruct (args_get arguments (u "query")) as [query|] eqn:Hq.
  - rewrite (args_get_has_arguments _ _ _ Hq).
    rewrite bool_decide_eq_true_2 by eauto.
    unfold args_getitem. rewrite Hq. reflexivity.
  - replace (bool_decide (is_Some (@None str))) with false by reflexivity.
    rewrite orb_true_r. reflexivity.
Qed.

(** X20.  The search tool reports that the query parameter is required
    exactly when the call carries no query argument; with a query argument,
    even an empty one, it answers with search results or with the no-results
    message. *)
Theorem search_requires_query (lower : str -> str) (fetch : str -> fetched)
    (arguments : option (gmap str str)) :
  (handle_call_tool lower fetch (u "search_profile_content") arguments
   = text_result (u "Error: Query parameter is required for search")
   <-> args_get arguments (u "query") = None)
  /\ (forall query,
        args_get arguments (u "query") = Some query ->
        _search_profile_content lower fetch query
        = Return (handle_call_tool lower fetch (u "search_profile_content") arguments)).
Proof.
  rewrite search_tool_dispatch. split.
  - destruct (args_get arguments (u "query")) as [query|]; [|done].
    destruct (_search_profile_content_text lower fetch query) as (c & rest & -> & Hc).
    split; [|done]. intros Heq. unfold text_result in Heq.
    injection Heq as Hc' _. by destruct (Hc Hc').
  - intros query ->.
    by destruct (_search_profile_content_text lower fetch query) as (c & rest & -> & _).
Qed.

Lemma split_from_no_separator (sep cur s : str) :
  contains sep s = false -> split_from sep 0 cur s = [rev cur ++ s].
Proof.
  revert cur. induction s as [|c s IH]; intros cur Hc.
  - simpl. by rewrite app_nil_r.
  - change (contains sep (c :: s)) with (startswith sep (c :: s) || contains sep s) in Hc.
    apply orb_false_iff in Hc as [Hstart Hrest].
    cbn [split_from]. rewrite Hstart, (IH _ Hrest). simpl. by rewrite <- app_assoc.
Qed.

Lemma split_no_separator (sep s : str) :
  contains sep s = false -> split sep s = [s].
Proof. intros Hc. unfold split. by rewrite split_from_no_separator. Qed.

(** X21.  A source whose extracted text has no blank line is searched as
    one paragraph: it is in the result set exactly when the text contains
    the lower-cased query and has more than 20 characters once trimmed, and
    its entry then holds the whole text as its only match.  The text of a
    failed fetch is searched like any other. *)
Theorem search_of_single_paragraph (lower : str -> str) (fetch : str -> fetched)
    (query section_name url : str) :
  In (section_name, url) profile_urls ->
  contains (LF ++ LF) (_fetch_and_parse_content fetch url) = false ->
  ((exists hit, In hit (search_results lower fetch query) /\ hit_url hit = url)
   <-> contains (lower query) (lower (_fetch_and_parse_content fetch url)) = true
       /\ 20 < length (strip (_fetch_and_parse_content fetch url)))
  /\ (forall hit,
        In hit (search_results lower fetch query) -> hit_url hit = url ->
        hit_matches hit = [_fetch_and_parse_content fetch url]).
Proof.
  intros Hsource Hone.
  assert (Hrel : relevant_paragraphs lower (lower query) (_fetch_and_parse_content fetch url)
                 = if contains (lower query) (lower (_fetch_and_parse_content fetch url))
                      && (20 <? length (strip (_fetch_and_parse_content fetch url)))
                   then [_fetch_and_parse_content fetch url] else []).
  { unfold relevant_paragraphs. rewrite (split_no_separator _ _ Hone). reflexivity. }
  rewrite search_results_collect. split; [split|].
  - intros (hit & Hin & Hurl).
    apply list_elem_of_In, list_elem_of_omap in Hin as ([s' url'] & _ & Hhit).
    apply source_hit_Some in Hhit as (-> & Hc & Hne). cbn [hit_url snd] in *.
    subst url'. split; [exact Hc|]. rewrite Hrel, Hc in Hne.
    destruct (20 <? _) eqn:Hlen; [by apply Nat.ltb_lt in Hlen | done].
  - intros [Hc Hlen]. apply Nat.ltb_lt in Hlen.
    exists {| hit_section := title section_name; hit_url := url;
              hit_matches := [_fetch_and_parse_content fetch url] |}.
    split; [|reflexivity].
    apply list_elem_of_In, list_elem_of_omap. exists (section_name, url).
    split; [by apply list_elem_of_In|].
    unfold source_hit. cbn [fst snd]. rewrite Hc, Hrel, Hc, Hlen. reflexivity.
  - intros hit Hin Hurl.
    apply list_elem_of_In, list_elem_of_omap in Hin as ([s' url'] & _ & Hhit).
    apply source_hit_Some in Hhit as (-> & Hc & Hne). cbn [hit_url hit_matches snd] in *.
    subst url'. rewrite Hrel in *. rewrite Hc in *.
    destruct (20 <? _); [reflexivity | done].
Qed.

Lemma search_of_single_paragraph_witness :
  exists hit,
    In hit (search_results lower_latin1 offline (u "Connection"))
    /\ hit_url hit = u "https://sites.google.com/view/haris-gulzar/experience".
Proof.
  apply (proj1 (search_of_single_paragraph lower_latin1 offline (u "Connection")
                  (u "experience")
                  (u "https://sites.google.com/view/haris-gulzar/experience")
                  ltac:(right; left; reflexivity)
                  ltac:(vm_compute; reflexivity))).
  split; [vm_compute; reflexivity | vm_compute; lia].
Defined.

(** ** The prompt template *)

(** X22.  [handle_get_prompt] answers for the name that [handle_list_prompts]
    publishes and for no other: any other name raises an error that names
    it.  Unlike an unknown tool, an unknown prompt is not turned into a text
    result. *)
Theorem get_prompt_published_only (name : str) (arguments : option (gmap str str)) :
  ((exists result, handle_get_prompt name arguments = Return result)
   <-> In name (map prompt_name handle_list_prompts))
  /\ (~ In name (map prompt_name handle_list_prompts) ->
      handle_get_prompt name arguments = Raise (u "Unknown prompt: " ++ name)).
Proof.
  unfold handle_get_prompt, str_eqb. case_bool_decide as Hname; simpl.
  - split; [|intros Hnew; destruct Hnew; by left].
    split; [intros _; by left | intros _; eauto].
  - split; [|done]. split.
    + by intros [result Hres].
    + intros [Heq|[]]. by destruct Hname.
Qed.

(** X23.  The prompt is one user message: the fixed text with the query
    type put in after the words Current Query Context.  Any string is taken
    as query type, and a call without one gets the text for general. *)
Theorem get_prompt_query_type (arguments : option (gmap str str)) :
  (forall query_type,
      args_get arguments (u "query_type") = Some query_type ->
      handle_get_prompt (u "haris_profile_assistant") arguments
      = Return {| description := u "Profile information assistant for Haris Gulzar";
                  messages :=
                    [ {| role := u "user";
                         message_content :=
                           {| text := prompt_head ++ query_type ++ prompt_tail |} |} ] |})
  /\ (args_get arguments (u "query_type") = None ->
      handle_get_prompt (u "haris_profile_assistant") arguments
      = handle_get_prompt (u "haris_profile_assistant")
          (Some {[ u "query_type" := u "general" ]})).
Proof.
  assert (Hgeneral :
            handle_get_prompt (u "haris_profile_assistant")
              (Some {[ u "query_type" := u "general" ]})
            = Return {| description := u "Profile information assistant for Haris Gulzar";
                        messages :=
                          [ {| role := u "user";
                               message_content :=
                                 {| text := prompt_head ++ u "general" ++ prompt_tail |} |} ] |}).
  { unfold handle_get_prompt.
    replace (str_eqb (u "haris_profile_assistant") (u "haris_profile_assistant"))
      with true by reflexivity.
    assert (Hget : args_get (Some {[ u "query_type" := u "general" ]}) (u "query_type")
                   = Some (u "general")) by (simpl; apply lookup_singleton_eq).
    by rewrite (args_get_has_arguments _ _ _ Hget), Hget. }
  split.
  - intros query_type Hget. unfold handle_get_prompt.
    replace (str_eqb (u "haris_profile_assistant") (u "haris_profile_assistant"))
      with true by reflexivity.
    by rewrite (args_get_has_arguments _ _ _ Hget), Hget.
  - intros Hnone. rewrite Hgeneral. unfold handle_get_prompt.
    replace (str_eqb (u "haris_profile_assistant") (u "haris_profile_assistant"))
      with true by reflexivity.
    rewrite Hnone. by destruct (has_arguments arguments).
Qed.

Lemma get_prompt_query_type_witness :
  handle_get_prompt (u "haris_profile_assistant") (Some {[ u "query_type" := u "hobbies" ]})
  = Return {| description := u "Profile information assistant for Haris Gulzar";
              messages :=
                [ {| role := u "user";
                     message_content :=
                       {| text := prompt_head ++ u "hobbies" ++ prompt_tail |} |} ] |}
  /\ handle_get_prompt (u "haris_profile_assistant") None
     = handle_get_prompt (u "haris_profile_assistant")
         (Some {[ u "query_type" := u "general" ]}).
Proof.
  split.
  - apply (proj1 (get_prompt_query_type (Some {[ u "query_type" := u "hobbies" ]}))).
    simpl. apply lookup_singleton_eq.
  - apply (proj2 (get_prompt_query_type None)). reflexivity.
Defined.

(** ** Connecting *)

Lemma split_ws_from_words (cur s : str) :
  cur <> [] \/ s <> [] ->
  Forall (fun c => isspace c = false) cur ->
  Forall (fun w => w <> [] /\ Forall (fun c => isspace c = false) w) (split_ws_from cur s).
Proof.
  revert cur. induction s as [|c s IH]; intros cur Hne Hcur; simpl.
  - destruct cur as [|d cur]; [constructor|]. constructor; [|constructor]. split.
    + intros Hrev. apply (f_equal (@length N)) in Hrev.
      rewrite length_rev in Hrev. discriminate Hrev.
    + by apply Forall_rev.
  - destruct (isspace c) eqn:Hc.
    + destruct cur as [|d cur].
      * destruct s as [|c' s]; [constructor|]. apply IH; [by right | constructor].
      * constructor.
        -- split.
           ++ intros Hrev. apply (f_equal (@length N)) in Hrev.
              rewrite length_rev in Hrev. discriminate Hrev.
           ++ by apply Forall_rev.
        -- destruct s as [|c' s]; [constructor|]. apply IH; [by right | constructor].
    + apply IH; [by left | by constructor].
Qed.

Lemma split_ws_words (s : str) :
  Forall (fun w => w <> [] /\ Forall (fun c => isspace c = false) w) (split_ws s).
Proof.
  unfold split_ws. destruct s as [|c s]; [constructor|].
  apply split_ws_from_words; [by right | constructor].
Qed.

Lemma split_ws_blank (s : str) :
  Forall (fun c => isspace c = true) s -> split_ws s = [].
Proof.
  unfold split_ws. induction 1 as [|c s Hc _ IH]; simpl; [done|]. by rewrite Hc.
Qed.

Lemma connect_words (stdio_client : StdioServerParameters -> exc ClientSession)
    (server_path command : str) (args : list str) :
  split_ws server_path = command :: args ->
  connect_to_server stdio_client server_path
  = match stdio_client {| sp_command := command; sp_args := args |} with
    | Return session => (true, Some session)
    | Raise e => (false, None)
    end.
Proof.
  intros Hwords. unfold connect_to_server. rewrite Hwords.
  unfold list_getitem. cbn [nth_error mbind exc_bind].
  destruct args as [|a args]; reflexivity.
Qed.

(** X24.  A server path without any word, empty or all white space, cannot
    be started: [connect_to_server] returns false and leaves the session
    unset, without trying to start a process. *)
Theorem connect_blank_path_fails (stdio_client : StdioServerParameters -> exc ClientSession)
    (server_path : str) :
  Forall (fun c => isspace c = true) server_path ->
  connect_to_server stdio_client server_path = (false, None).
Proof.
  intros Hblank. unfold connect_to_server. by rewrite (split_ws_blank _ Hblank).
Qed.

Lemma connect_blank_path_fails_witness :
  connect_to_server local_server (u "   ") = (false, None).
Proof.
  apply connect_blank_path_fails. repeat constructor.
Defined.

(** X25.  [connect_to_server] returns true exactly when it leaves a session
    set.  It does so when the first word of the path, with the other words
    as arguments, starts a process and a channel; the words are never empty
    and hold no white space. *)
Theorem connect_sets_session (stdio_client : StdioServerParameters -> exc ClientSession)
    (server_path : str) :
  (fst (connect_to_server stdio_client server_path) = true
   <-> is_Some (snd (connect_to_server stdio_client server_path)))
  /\ (forall session,
        snd (connect_to_server stdio_client server_path) = Some session ->
        exists command args,
          split_ws server_path = command :: args
          /\ stdio_client {| sp_command := command; sp_args := args |} = Return session
          /\ Forall (fun w => w <> [] /\ Forall (fun c => isspace c = false) w)
                    (command :: args)).
Proof.
  pose proof (split_ws_words server_path) as Hwords.
  destruct (split_ws server_path) as [|command args] eqn:Hsplit.
  - unfold connect_to_server. rewrite Hsplit. simpl. split; [|done].
    split; [done | by intros [x Hx]].
  - rewrite (connect_words _ _ _ _ Hsplit).
    destruct (stdio_client _) as [e|session] eqn:Hstart; simpl.
    + split; [|done]. split; [done | by intros [x Hx]].
    + split; [split; eauto|]. intros s [= <-]. by exists command, args.
Qed.

Example default_server_path_words :
  split_ws default_server_path = [u "python"; u "haris_profile_server.py"].
Proof. reflexivity. Qed.

(** X26.  When the server cannot be started, [main] prints that it is
    connecting and that it failed, and ends: the chat does not start, so
    nothing that is typed is read and no tool is called. *)
Theorem main_connection_failure (lower : str -> str) (post : str -> json -> posted)
    (stdio_client : StdioServerParameters -> exc ClientSession)
    (e : str) (lines : list str) (st : io) :
  stdio_client {| sp_command := u "python"; sp_args := [u "haris_profile_server.py"] |}
  = Raise e ->
  main lower post stdio_client lines st
  = (Return tt,
     {| exchanges := exchanges st;
        printed :=
          printed st
          ++ [ Line (u "Connecting to Haris Profile MCP Server...");
               Line (u "Failed to connect to server. Make sure the server is running.") ] |}).
Proof.
  intros Hstart. unfold main.
  rewrite (connect_words _ _ (u "python") [u "haris_profile_server.py"]) by reflexivity.
  rewrite Hstart. unfold mbind, IO_bind, print. cbn [exchanges printed].
  by rewrite <- app_assoc.
Qed.

Lemma main_connection_failure_witness :
  main lower_latin1 no_backend no_process [u "who is he?"; u "/quit"] io0
  = (Return tt,
     {| exchanges := exchanges io0;
        printed :=
          printed io0
          ++ [ Line (u "Connecting to Haris Profile MCP Server...");
               Line (u "Failed to connect to server. Make sure the server is running.") ] |}).
Proof.
  apply (main_connection_failure lower_latin1 no_backend no_process
           (u "[Errno 2] No such file or directory")).
  reflexivity.
Defined.

(** ** The client on the server *)

Example call_tool_search_offline :
  fst (call_tool (Some (server_session lower_latin1 offline)) (u "search_profile_content")
         (Some {[ u "query" := u "internships" ]}) io0)
  = Return (u "No results found for 'internships' in the profile content.").
Proof. vm_compute. reflexivity. Qed.

(** ** What a pass of the chat loop does, line by line *)

Lemma print_tool_lines (tools_listed : list (str * str)) (st : io) :
  for_each tools_listed
    (fun tool => let '(name, descr) := tool in
                 print (Line (u "- " ++ name ++ u ": " ++ descr))) st
  = (Return (map (fun _ => tt) tools_listed),
     {| exchanges := exchanges st;
        printed := printed st
                   ++ map (fun tool => Line (u "- " ++ fst tool ++ u ": " ++ snd tool))
                        tools_listed |}).
Proof.
  revert st. induction tools_listed as [|[name descr] rest IH]; intros st.
  - destruct st. simpl. by rewrite app_nil_r.
  - cbn [for_each]. unfold mbind at 1, IO_bind at 1. cbn [print].
    unfold mbind at 1, IO_bind at 1. rewrite IH. cbn [exchanges printed map fst snd].
    unfold mret, IO_ret. by rewrite <- app_assoc.
Qed.

Lemma query_pass_connected (lower : str -> str) (post : str -> json -> posted)
    (s : ClientSession) (line user_input : str) (st : io) :
  command_of lower line = Ask user_input ->
  chat_turn lower post (Some s) line st
  = (Return Continue,
     {| exchanges :=
          exchanges st ++ map (exchange_of s) (_determine_relevant_tools lower user_input);
        printed :=
          printed st
          ++ map fetching_line (_determine_relevant_tools lower user_input)
          ++ [ Line (u "Generating response...");
               Assistant
                 (query_llm_with_context post user_input
                    (join (LF ++ LF)
                       (map (fun tool_name => context_part (exchange_of s tool_name))
                          (_determine_relevant_tools lower user_input)))) ] |}).
Proof.
  intros Hcmd. unfold chat_turn, try_except. rewrite Hcmd.
  unfold mbind at 1, IO_bind at 1. rewrite gather_context_connected.
  unfold mbind, IO_bind, print, mret, IO_ret. cbn [exchanges printed].
  rewrite <- !app_assoc. reflexivity.
Qed.

(** C10, as the code has it.  In an open session a line is trimmed and
    lower-cased before it is compared.  When it is then one of /quit, /exit,
    quit and exit, the pass breaks out of the loop and nothing typed after it
    is read.  Otherwise, when it is /help, the pass prints the five lines of
    the usage.  Otherwise, when it is /tools, the pass prints Available tools
    and one line for each tool the session lists.  Otherwise, when nothing is
    left after trimming, the pass does nothing.  Every other line is asked as
    a query: the trimmed line as typed is ranked, the selected tools are
    called and the answer is generated from the query and the replies. *)
Theorem chat_turn_commands (lower : str -> str) (post : str -> json -> posted)
    (s : ClientSession) (line : str) (st : io) :
  let user_input := strip line in
  let typed := lower user_input in
  (In typed [u "/quit"; u "/exit"; u "quit"; u "exit"]
   /\ chat_turn lower post (Some s) line st = (Return Break, st)
   /\ (forall rest, chat_loop lower post (Some s) (line :: rest) st = (Return Break, st)))
  \/ (~ In typed [u "/quit"; u "/exit"; u "quit"; u "exit"]
      /\ ((typed = u "/help"
           /\ chat_turn lower post (Some s) line st
              = (Return Continue,
                 {| exchanges := exchanges st;
                    printed :=
                      printed st
                      ++ [ Line (u "Available commands:");
                           Line (u "- Ask any question about Haris Gulzar");
                           Line (u "- /tools : List available MCP tools");
                           Line (u "- /help : Show this help");
                           Line (u "- /quit : Exit") ] |}))
          \/ (typed <> u "/help"
              /\ ((typed = u "/tools"
                   /\ chat_turn lower post (Some s) line st
                      = (Return Continue,
                         {| exchanges := exchanges st;
                            printed :=
                              printed st
                              ++ match list_tools s with
                                 | Return tools_listed =>
                                     Line (u "Available tools:")
                                     :: map (fun tool =>
                                               Line (u "- " ++ fst tool ++ u ": " ++ snd tool))
                                          tools_listed
                                 | Raise e => [Line (u "Error: " ++ e)]
                                 end |}))
                  \/ (typed <> u "/tools"
                      /\ ((user_input = []
                           /\ chat_turn lower post (Some s) line st = (Return Continue, st))
                          \/ (user_input <> []
                              /\ chat_turn lower post (Some s) line st
                                 = (Return Continue,
                                    {| exchanges :=
                                         exchanges st
                                         ++ map (exchange_of s)
                                              (_determine_relevant_tools lower user_input);
                                       printed :=
                                         printed st
                                         ++ map fetching_line
                                              (_determine_relevant_tools lower user_input)
                                         ++ [ Line (u "Generating response...");
                                              Assistant
                                                (query_llm_with_context post user_input
                                                   (join (LF ++ LF)
                                                      (map (fun tool_name =>
                                                              context_part
                                                                (exchange_of s tool_name))
                                                         (_determine_relevant_tools lower
                                                            user_input)))) ] |})))))))).
Proof.
  intros user_input typed.
  destruct (command_of_cases lower line)
    as [[Hq Hcmd]|[Hnq [[Hh Hcmd]|[Hnh [[Ht Hcmd]|[Hnt [[Hb Hcmd]|[Hnb Hcmd]]]]]]]].
  - left. split; [exact Hq|].
    assert (Hturn : chat_turn lower post (Some s) line st = (Return Break, st))
      by (unfold chat_turn, try_except; by rewrite Hcmd).
    split; [exact Hturn|]. intros rest. cbn [chat_loop].
    unfold mbind, IO_bind. by rewrite Hturn.
  - right. split; [exact Hnq|]. left. split; [exact Hh|].
    unfold chat_turn, try_except. rewrite Hcmd.
    unfold mbind, IO_bind, print, mret, IO_ret. cbn [exchanges printed].
    rewrite <- !app_assoc. reflexivity.
  - right. split; [exact Hnq|]. right. split; [exact Hnh|]. left. split; [exact Ht|].
    unfold chat_turn, try_except. rewrite Hcmd. unfold get_available_tools.
    destruct (list_tools s) as [e|tools_listed].
    + unfold mbind, IO_bind, raise, print, mret, IO_ret. reflexivity.
    + unfold mbind at 1, IO_bind at 1. cbn [mret IO_ret].
      unfold mbind at 1, IO_bind at 1. cbn [print].
      unfold mbind at 1, IO_bind at 1. rewrite print_tool_lines.
      cbn [exchanges printed]. unfold mret, IO_ret.
      rewrite <- !app_assoc. reflexivity.
  - right. split; [exact Hnq|]. right. split; [exact Hnh|]. right. split; [exact Hnt|].
    left. split; [exact Hb|]. unfold chat_turn, try_except. by rewrite Hcmd.
  - right. split; [exact Hnq|]. right. split; [exact Hnh|]. right. split; [exact Hnt|].
    right. split; [exact Hnb|]. by apply query_pass_connected.
Qed.

Example help_prints_usage :
  printed (snd (chat_turn lower_latin1 no_backend
                  (Some (server_session lower_latin1 offline)) (u " /HELP") io0))
  = [ Line (u "Available commands:");
      Line (u "- Ask any question about Haris Gulzar");
      Line (u "- /tools : List available MCP tools");
      Line (u "- /help : Show this help");
      Line (u "- /quit : Exit") ].
Proof. vm_compute. reflexivity. Qed.

Example tools_lists_catalog :
  printed (snd (chat_turn lower_latin1 no_backend
                  (Some (server_session lower_latin1 offline)) (u "/tools") io0))
  = Line (u "Available tools:")
    :: map (fun tool => Line (u "- " ++ fst tool ++ u ": " ++ snd tool)) tools.
Proof. vm_compute. reflexivity. Qed.

(** ** The calls of the chat loop and their arguments *)

Lemma call_tool_keeps (P : exchange -> Prop) (s : ClientSession) (tool_name : str) :
  P (exchange_of s tool_name) ->
  keeps_calls P (call_tool (Some s) tool_name None).
Proof.
  intros HP st Hst. rewrite call_tool_connected. cbn [snd exchanges].
  apply Forall_app. split; [exact Hst|]. constructor; [exact HP | constructor].
Qed.

Lemma chat_turn_keeps (P : exchange -> Prop) (lower : str -> str)
    (post : str -> json -> posted) (s : ClientSession) (line : str) :
  (forall tool_name, P (exchange_of s tool_name)) ->
  keeps_calls P (chat_turn lower post (Some s) line).
Proof.
  intros HP. unfold chat_turn. apply keeps_calls_try_except.
  - destruct (command_of lower line).
    + apply keeps_calls_ret.
    + repeat (apply keeps_calls_bind; [apply keeps_calls_print | intros _]).
      apply keeps_calls_ret.
    + apply keeps_calls_bind.
      * unfold get_available_tools.
        destruct (list_tools s); [apply keeps_calls_raise | apply keeps_calls_ret].
      * intros tools_listed.
        apply keeps_calls_bind; [apply keeps_calls_print | intros _].
        apply keeps_calls_bind; [|intros _; apply keeps_calls_ret].
        apply keeps_calls_for_each. intros [name descr]. apply keeps_calls_print.
    + apply keeps_calls_ret.
    + apply keeps_calls_bind.
      * apply keeps_calls_for_each. intros tool_name.
        apply keeps_calls_bind; [apply keeps_calls_print | intros _].
        apply keeps_calls_bind; [by apply call_tool_keeps | intros r].
        apply keeps_calls_ret.
      * intros context_parts.
        repeat (apply keeps_calls_bind; [apply keeps_calls_print | intros _]).
        apply keeps_calls_ret.
  - intros e. apply keeps_calls_bind; [apply keeps_calls_print | intros _].
    apply keeps_calls_ret.
Qed.

Lemma interactive_chat_keeps (P : exchange -> Prop) (lower : str -> str)
    (post : str -> json -> posted) (s : ClientSession) (lines : list str) :
  (forall tool_name, P (exchange_of s tool_name)) ->
  keeps_calls P (interactive_chat lower post (Some s) lines).
Proof.
  intros HP. unfold interactive_chat. apply keeps_calls_bind.
  - apply keeps_calls_for_each. intros o. apply keeps_calls_print.
  - intros _. induction lines as [|line rest IH]; cbn [chat_loop].
    + apply keeps_calls_ret.
    + apply keeps_calls_bind; [by apply chat_turn_keeps|].
      intros [|]; [apply keeps_calls_ret | exact IH].
Qed.

Lemma reply_of_sdk_search (validate : str -> gmap str str -> option str)
    (lower : str -> str) (fetch : str -> fetched) :
  reply_of (sdk_session validate lower fetch) (u "search_profile_content")
  = match validate (u "search_profile_content") ∅ with
    | Some rejection => rejection
    | None => u "Error: Query parameter is required for search"
    end.
Proof.
  unfold reply_of, sdk_session. cbn [session_call_tool].
  destruct (validate (u "search_profile_content") ∅) as [rejection|]; [reflexivity|].
  by rewrite search_without_query.
Qed.


(** ** Leaving the chat *)

Lemma bind_not_break {A : Type} (c : IO A) (f : A -> IO control) (st : io) :
  (forall a st', fst (f a st') <> Return Break) ->
  fst ((c ≫= f) st) <> Return Break.
Proof.
  intros Hf. unfold mbind, IO_bind.
  destruct (c st) as [[e|a] st']; [discriminate | apply Hf].
Qed.

Lemma try_except_not_break (body : IO control) (st : io) :
  fst (body st) <> Return Break ->
  fst (try_except body (fun e => print (Line (u "Error: " ++ e));; mret Continue) st)
  <> Return Break.
Proof.
  intros Hbody. unfold try_except.
  destruct (body st) as [[e|c] st']; [rewrite handler_continues; discriminate|].
  exact Hbody.
Qed.

Lemma chat_turn_break (lower : str -> str) (post : str -> json -> posted)
    (session : option ClientSession) (line : str) (st : io) :
  fst (chat_turn lower post session line st) = Return Break
  <-> command_of lower line = Quit.
Proof.
  split; [|intros Hq; by rewrite chat_turn_quit].
  intros Hbreak. destruct (command_of lower line) as [| | | |user_input] eqn:Hcmd;
    [reflexivity|exfalso..]; revert Hbreak; unfold chat_turn; rewrite Hcmd;
    apply try_except_not_break.
  - repeat (apply bind_not_break; intros ? ?). discriminate.
  - repeat (apply bind_not_break; intros ? ?). discriminate.
  - discriminate.
  - repeat (apply bind_not_break; intros ? ?). discriminate.
Qed.

Lemma chat_loop_break (lower : str -> str) (post : str -> json -> posted)
    (session : option ClientSession) (lines : list str) (st : io) :
  fst (chat_loop lower post session lines st) = Return Break
  <-> exists line, In line lines /\ command_of lower line = Quit.
Proof.
  revert st. induction lines as [|line rest IH]; intros st.
  - split; [discriminate | by intros (line & [] & _)].
  - cbn [chat_loop]. unfold mbind, IO_bind.
    pose proof (chat_turn_break lower post session line st) as Hturn.
    destruct (chat_turn_returns lower post session line st) as (c & st' & Heq).
    rewrite Heq in Hturn |- *. cbn [fst] in Hturn. destruct c.
    + split; [|done]. intros _. exists line. split; [by left | by apply Hturn].
    + rewrite IH. split.
      * intros (l & Hin & Hq). exists l. split; [by right | exact Hq].
      * intros (l & [<-|Hin] & Hq); [|by exists l].
        apply Hturn in Hq. discriminate Hq.
Qed.



Example main_says_goodbye_after_quit :
  last (printed (snd (main lower_latin1 no_backend local_server
                        [u "/help"; u "quit"; u "who is he?"] io0)))
  = Some (Line (u "Goodbye!"))
  /\ last (printed (snd (main lower_latin1 no_backend local_server [u "/help"] io0)))
     = Some (Line (u "- /quit : Exit")).
Proof. vm_compute. split; reflexivity. Qed.

(** X28.  A call made with [call_tool] in a session with this server never
    raises: it sends the arguments given, or the empty mapping when none are
    given, and records the one call.  When the SDK layer turns the call down
    the reply is the text of that layer; otherwise it is the one text of the
    answer of [handle_call_tool], which is not empty, and for the search tool
    called with a query it is the text of the search. *)
Theorem call_tool_on_server (validate : str -> gmap str str -> option str)
    (lower : str -> str) (fetch : str -> fetched)
    (tool_name : str) (arguments : option (gmap str str)) (st : io) :
  exists reply,
    call_tool (Some (sdk_session validate lower fetch)) tool_name arguments st
    = (Return reply,
       {| exchanges :=
            exchanges st
            ++ [ {| ex_name := tool_name;
                    ex_arguments := default ∅ arguments;
                    ex_reply := reply |} ];
          printed := printed st |})
    /\ match validate tool_name (default ∅ arguments) with
       | Some rejection => reply = rejection
       | None =>
           content (handle_call_tool lower fetch tool_name (Some (default ∅ arguments)))
           = [ {| text := reply |} ]
           /\ reply <> []
           /\ (forall query,
                 tool_name = u "search_profile_content" ->
                 arguments = Some {[ u "query" := query ]} ->
                 _search_profile_content lower fetch query = Return (text_result reply))
       end.
Proof.
  unfold call_tool, sdk_session. cbn [session_call_tool].
  destruct (validate tool_name (default ∅ arguments)) as [rejection|].
  - exists rejection. split; reflexivity.
  - destruct (handle_call_tool_text lower fetch tool_name (Some (default ∅ arguments)))
      as (c & rest & Htext).
    exists (c :: rest). split; [by rewrite Htext|].
    split; [by rewrite Htext|]. split; [discriminate|].
    intros query -> ->.
    change (default ∅ (Some {[ u "query" := query ]}))
      with ({[ u "query" := query ]} : gmap str str) in Htext.
    rewrite search_tool_dispatch in Htext.
    assert (Hq : args_get (Some {[ u "query" := query ]}) (u "query") = Some query)
      by (simpl; apply lookup_singleton_eq).
    rewrite Hq in Htext.
    destruct (_search_profile_content_text lower fetch query) as (c' & rest' & Hs & _).
    rewrite Hs in Htext |- *. by rewrite Htext.
Qed.
